(** * Staging dates of a Jira issue: a model of [staging-parser.ts]

    [getStagingDates] turns the status changelog of one issue into one date
    string per workflow stage.  This file embeds the functions of
    [src/components/staging-parser.ts] and proves properties of them.

    Conventions of the embedding.
    - Strings are [string]; the timestamps and stage names the code handles
      are compared with [===] and [<], modelled by [String.eqb] and
      [String.ltb].
    - Days counted by [businessDiff] are integers, modelled in [Z].
    - The two side tables of the code ([activeStatusesPassedDays],
      [inactiveStatusesDates]) and the table of simulated dates are JS
      objects used as maps from stage name to value; they are modelled as
      [gmap string _] holding the properties the code itself assigns.
      Properties such an object inherits from its prototype are outside the
      model.
    - A JS exception (reading a property of [undefined]) is the [Throw]
      result.
    - The [moment] library is an external capability of the code; it is an
      interface ([BusinessCalendar]) here, with one Monday-Friday instance. *)

From Stdlib Require Import ZArith String Ascii List Bool Lia Sorted.
From stdpp Require Import gmap strings.
Import ListNotations.

Open Scope Z_scope.
Open Scope string_scope.
Open Scope list_scope.

(** ** Data of [types.ts], as the parser uses it *)

(** Modelled from the spec: the declarations of [types.ts] are not among the
    sources.  The records below have the fields the parser reads and writes,
    with the types of the input contract: one field change of a history
    entry, whose [fromString] and [toString] may be [null] in the tracker's
    JSON, which is [None] here. *)
Record JiraApiBaseItem := {
  item_field : string;
  item_fromString : option string;
  item_toString : option string
}.

Record JiraApiHistory := {
  history_created : string;
  history_items : list JiraApiBaseItem
}.

(** [issue.fields.created] and [issue.changelog.histories]. *)
Record JiraApiIssue := {
  fields_created : string;
  changelog_histories : list JiraApiHistory
}.

(** A status transition, with the time of the transition before it. *)
Record JiraComputedItem := {
  fromString : option string;
  toString : option string;
  created : string;
  previousCreated : option string
}.

Record StagePassedDays := {
  didHappen : bool;
  passedDays : Z
}.

(** A workflow is a JS object; only its keys are used, in the order
    [Object.keys] lists them. *)
Definition Workflow := list (string * list string).

Definition Object_keys (workflow : Workflow) : list string := map fst workflow.

(** ** Results and exceptions *)

Inductive exn :=
  | TypeError (what : string).

Inductive result (A : Type) :=
  | Ok (a : A)
  | Throw (e : exn).

Arguments Ok {A} a.
Arguments Throw {A} e.

Definition bind {A B} (r : result A) (k : A -> result B) : result B :=
  match r with
  | Ok a => k a
  | Throw e => Throw e
  end.

Notation "x <- r ;; k" := (bind r (fun x => k))
  (at level 100, r at next level, right associativity).

(** [l.forEach(f)] where [f] updates the variables [s] it closes over and may
    throw: the loop stops at the first exception. *)
Fixpoint forEach {A S} (f : S -> A -> result S) (l : list A) (s : S) : result S :=
  match l with
  | [] => Ok s
  | x :: l' => s' <- f s x ;; forEach f l' s'
  end.

(** [l.map(f)] where [f] also updates the variables [s] it closes over. *)
Fixpoint mapWith {A B S} (f : S -> A -> result (B * S)) (l : list A) (s : S)
  : result (list B * S) :=
  match l with
  | [] => Ok ([], s)
  | x :: l' =>
      r <- f s x ;;
      rs <- mapWith f l' (snd r) ;;
      Ok (fst r :: fst rs, snd rs)
  end.


(** ** JS primitives on strings and arrays *)

(** [xs.includes(x)] *)
Definition includes (xs : list string) (x : string) : bool :=
  existsb (String.eqb x) xs.

(** [v === stage] for a value that is a string or [null]. *)
Definition strictEq (v : option string) (stage : string) : bool :=
  match v with
  | Some s => String.eqb s stage
  | None => false
  end.

(** Truthiness of a string-valued variable that may be [undefined]. *)
Definition truthy (v : option string) : bool :=
  match v with
  | Some s => negb (String.eqb s "")
  | None => false
  end.

(** [s.split('T')[0]]: the part of [s] before its first ['T']. *)
Fixpoint splitT0 (s : string) : string :=
  match s with
  | EmptyString => EmptyString
  | String c s' => if Ascii.eqb c "T"%char then EmptyString else String c (splitT0 s')
  end.

Definition lowerAscii (c : ascii) : ascii :=
  let n := N_of_ascii c in
  if ((65 <=? n) && (n <=? 90))%N then ascii_of_N (n + 32) else c.

(** [s.toLowerCase()], on the letters A-Z.  No character outside A-Z has
    [d], [o], [n] or [e] as its lower case, so the test against ['done']
    below is the one of the code. *)
Fixpoint toLowerCase (s : string) : string :=
  match s with
  | EmptyString => EmptyString
  | String c s' => String (lowerAscii c) (toLowerCase s')
  end.

(** Truthiness of a table entry: an object, or [undefined]. *)
Definition isSet {A} (v : option A) : bool :=
  match v with
  | Some _ => true
  | None => false
  end.

(** [xs.sort(comparefn)], as a stable insertion: an element moves in front
    of the elements the comparator puts it before. *)
Section Sort.
Context {A : Type} (comparefn : A -> A -> Z).

Fixpoint sort_insert (x : A) (l : list A) : list A :=
  match l with
  | [] => [x]
  | y :: l' => if (comparefn x y <? 0)%Z then x :: l else y :: sort_insert x l'
  end.

Definition sort (l : list A) : list A :=
  fold_left (fun acc x => sort_insert x acc) l [].

End Sort.

(** ** The business-day capability

    [moment(str)], [format('YYYY-MM-DD')] and the three operations of
    [moment-business-days] that the parser calls.  None of them mutates its
    receiver. *)
Class BusinessCalendar := {
  Moment : Type;
  moment : string -> Moment;
  format : Moment -> string;
  businessDiff : Moment -> Moment -> Z;
  businessAdd : Moment -> Z -> Moment;
  businessSubtract : Moment -> Z -> Moment
}.

(** ** The parser *)

Section Parser.
Context {cal : BusinessCalendar}.

(** [(date && date.format('YYYY-MM-DD')) || ''] *)
Definition formatOrEmpty (date : option Moment) : string :=
  match date with
  | Some d => format d
  | None => ""
  end.

Definition setPreviousCreated (item : JiraComputedItem) (p : string) : JiraComputedItem :=
  {| fromString := fromString item;
     toString := toString item;
     created := created item;
     previousCreated := Some p |}.

(** The comparator given to [sort]. *)
Definition comparefn (a b : JiraComputedItem) : Z :=
  if String.ltb (created a) (created b) then -1 else 1.

(** [history.items.filter(historyItem => historyItem['field'] === 'status')] *)
Definition statusItems (history : JiraApiHistory) : list JiraApiBaseItem :=
  List.filter (fun historyItem => String.eqb (item_field historyItem) "status")
    (history_items history).

(** The object literal built for one field change of an entry. *)
Definition computedItem (entry0 : string) (item : JiraApiBaseItem) : JiraComputedItem :=
  {| fromString := item_fromString item;
     toString := item_toString item;
     created := entry0;
     previousCreated := None |}.

(** The [forEach] of [processHistories]; [previous] is the variable
    [previousCreated] of the code, [undefined] at first. *)
Fixpoint linkPrevious (previous : option string) (items : list JiraComputedItem)
  : list JiraComputedItem :=
  match items with
  | [] => []
  | item :: rest =>
      (match previous with
       | Some p => if truthy previous then setPreviousCreated item p else item
       | None => item
       end) :: linkPrevious (Some (created item)) rest
  end.

Definition flattenedItems (issue : JiraApiIssue) : list JiraComputedItem :=
  concat
    (map (fun entry => map (computedItem (fst entry)) (snd entry))
       (List.filter (fun entry => (0 <? length (snd entry))%nat)
          (map (fun history => (history_created history, statusItems history))
             (changelog_histories issue)))).

Definition processHistories (issue : JiraApiIssue) : list JiraComputedItem :=
  linkPrevious None (sort comparefn (flattenedItems issue)).

(** The start of the episode an item closes: [item.previousCreated] once the
    callback has replaced a missing one by [issue.fields.created]. *)
Definition episodeStart (issue : JiraApiIssue) (item : JiraComputedItem) : string :=
  if truthy (previousCreated item)
  then match previousCreated item with Some p => p | None => fields_created issue end
  else fields_created issue.

(** What the callback of [reduce] leaves in the item it visits. *)
Definition touch (issue : JiraApiIssue) (item : JiraComputedItem) : JiraComputedItem :=
  if truthy (previousCreated item) then item
  else setPreviousCreated item (fields_created issue).

(** The callback of [reduce]: the accumulator and the variable
    [activeStatusDate] it closes over. *)
Definition countEpisode (issue : JiraApiIssue)
    (st : StagePassedDays * option Moment) (item : JiraComputedItem)
  : StagePassedDays * option Moment :=
  let statusStart := moment (splitT0 (episodeStart issue item)) in
  let statusEnd := moment (splitT0 (created item)) in
  ({| didHappen := true;
      passedDays := passedDays (fst st) + businessDiff statusEnd statusStart |},
   match snd st with
   | Some d => Some d
   | None => Some statusStart
   end).

(** The state [processActiveStatuses] works on: the table it fills, the date
    it returns and the items, which its callback writes to. *)
Record ActiveState := {
  as_passedDays : gmap string StagePassedDays;
  as_date : option Moment;
  as_items : list JiraComputedItem
}.

(** One turn of the [forEach] over the active stages. *)
Definition activeStage (issue : JiraApiIssue) (st : ActiveState) (stage : string)
  : ActiveState :=
  let selected :=
    List.filter (fun item => strictEq (fromString item) stage) (as_items st) in
  let r := fold_left (countEpisode issue) selected
             ({| didHappen := false; passedDays := 0 |}, as_date st) in
  {| as_passedDays := <[stage := fst r]> (as_passedDays st);
     as_date := snd r;
     as_items :=
       map (fun item =>
              if strictEq (fromString item) stage then touch issue item else item)
         (as_items st) |}.

Definition processActiveStatuses (issue : JiraApiIssue) (stages activeStatuses : list string)
    (sortedItems : list JiraComputedItem)
    (activeStatusesPassedDays : gmap string StagePassedDays) : ActiveState :=
  fold_left (activeStage issue)
    (List.filter (fun stage => includes activeStatuses stage) stages)
    {| as_passedDays := activeStatusesPassedDays;
       as_date := None;
       as_items := sortedItems |}.

(** One turn of the [forEach] over the inactive stages. *)
Definition inactiveStage (sortedItems : list JiraComputedItem)
    (dates : gmap string Moment) (stage : string) : gmap string Moment :=
  match List.find (fun item => strictEq (toString item) stage) sortedItems with
  | None => dates
  | Some firstStageItem => <[stage := moment (splitT0 (created firstStageItem))]> dates
  end.

Definition processInactiveStates (stages activeStatuses : list string)
    (sortedItems : list JiraComputedItem)
    (inactiveStatusesDates : gmap string Moment) : gmap string Moment :=
  fold_left (inactiveStage sortedItems)
    (List.filter (fun stage => negb (includes activeStatuses stage)) stages)
    inactiveStatusesDates.

(** The variables the [forEach] of [mapDoneIssue] updates: [activeStatusDate]
    and [activeStatusDates]. *)
Definition DoneState : Type := option Moment * gmap string Moment.

Definition doneStep (activeStatusesPassedDays : gmap string StagePassedDays)
    (st : DoneState) (status : string) : result DoneState :=
  match activeStatusesPassedDays !! status with
  | None => Throw (TypeError "didHappen")
  | Some passedDaysResult =>
      if negb (didHappen passedDaysResult) then Ok st
      else match fst st with
           | None => Throw (TypeError "businessSubtract")
           | Some d =>
               let activeStatusDate := businessSubtract d (passedDays passedDaysResult) in
               Ok (Some activeStatusDate, <[status := activeStatusDate]> (snd st))
           end
  end.

Definition doneInit (inactiveStatusesDates : gmap string Moment) : DoneState :=
  (inactiveStatusesDates !! "Done", ∅).

(** The callback of the final [stages.map] of [mapDoneIssue]. *)
Definition doneDate (activeStatuses : list string)
    (activeStatusDates inactiveStatusesDates : gmap string Moment) (stage : string)
  : string :=
  formatOrEmpty
    (if includes activeStatuses stage then activeStatusDates !! stage
     else inactiveStatusesDates !! stage).

Definition mapDoneIssue (stages activeStatuses : list string)
    (activeStatusesPassedDays : gmap string StagePassedDays)
    (inactiveStatusesDates : gmap string Moment) : result (list string) :=
  let activeStatusesReversed := rev activeStatuses in
  st <- forEach (doneStep activeStatusesPassedDays) activeStatusesReversed
          (doneInit inactiveStatusesDates) ;;
  Ok (map (doneDate activeStatuses (snd st) inactiveStatusesDates) stages).

Definition isDone (stage : string) : bool :=
  String.eqb (toLowerCase stage) "done".

(** The callback of the [stages.map] of [mapNotDoneIssue]; the state is the
    variable [activeStatusDate]. *)
Definition notDoneStep (activeStatuses : list string)
    (activeStatusesPassedDays : gmap string StagePassedDays)
    (inactiveStatusesDates : gmap string Moment)
    (activeStatusDate : option Moment) (stage : string)
  : result (string * option Moment) :=
  if negb (includes activeStatuses stage) && negb (isDone stage)
  then Ok (formatOrEmpty (inactiveStatusesDates !! stage), activeStatusDate)
  else if isDone stage && negb (isSet (inactiveStatusesDates !! stage))
  then Ok ("", activeStatusDate)
  else if isDone stage
  then match activeStatusDate with
       | None => Throw (TypeError "format")
       | Some d => Ok (format d, activeStatusDate)
       end
  else match activeStatusesPassedDays !! stage with
       | None => Throw (TypeError "didHappen")
       | Some passedDaysResult =>
           if negb (didHappen passedDaysResult) then Ok ("", activeStatusDate)
           else match activeStatusDate with
                | None => Throw (TypeError "businessAdd")
                | Some stageDate =>
                    Ok (format stageDate,
                        Some (businessAdd stageDate (passedDays passedDaysResult)))
                end
       end.

Definition mapNotDoneIssue (stages activeStatuses : list string)
    (activeStatusesPassedDays : gmap string StagePassedDays)
    (inactiveStatusesDates : gmap string Moment)
    (activeStatusDate : option Moment) : result (list string) :=
  r <- mapWith (notDoneStep activeStatuses activeStatusesPassedDays inactiveStatusesDates)
         stages activeStatusDate ;;
  Ok (fst r).

Definition getStagingDates (issue : JiraApiIssue) (workflow : Workflow)
    (activeStatuses : list string) : result (list string) :=
  let stages := Object_keys workflow in
  let sortedItems := processHistories issue in
  let active := processActiveStatuses issue stages activeStatuses sortedItems ∅ in
  let inactiveStatusesDates :=
    processInactiveStates stages activeStatuses (as_items active) ∅ in
  match inactiveStatusesDates !! "Done" with
  | None =>
      mapNotDoneIssue stages activeStatuses (as_passedDays active)
        inactiveStatusesDates (as_date active)
  | Some _ =>
      mapDoneIssue stages activeStatuses (as_passedDays active) inactiveStatusesDates
  end.

(** The tables [getStagingDates] hands to the two simulations. *)
Definition activeTable (issue : JiraApiIssue) (workflow : Workflow)
    (activeStatuses : list string) : ActiveState :=
  processActiveStatuses issue (Object_keys workflow) activeStatuses
    (processHistories issue) ∅.

Definition inactiveTable (issue : JiraApiIssue) (workflow : Workflow)
    (activeStatuses : list string) : gmap string Moment :=
  processInactiveStates (Object_keys workflow) activeStatuses
    (as_items (activeTable issue workflow activeStatuses)) ∅.

(** [isDoneDate] is set: the backward simulation is chosen. *)
Definition reachedDone (issue : JiraApiIssue) (workflow : Workflow)
    (activeStatuses : list string) : bool :=
  isSet (inactiveTable issue workflow activeStatuses !! "Done").

End Parser.

(** ** A Monday-Friday calendar

    Modelled from the spec: [moment] and [moment-business-days] are libraries
    the parser calls and are not among the sources.  The instance below
    follows the description of the capability: calendar dates written
    [YYYY-MM-DD], business days Monday to Friday, no holidays; the number of
    business days between two dates counts the days from the earlier one up
    to, and without, the later one. *)

Module MonFri.

Local Open Scope Z_scope.

(** Days since 1970-01-01 of a date of the proleptic Gregorian calendar. *)
Definition daysFromCivil (y m d : Z) : Z :=
  let y' := if m <=? 2 then y - 1 else y in
  let era := y' / 400 in
  let yoe := y' - era * 400 in
  let mp := (m + 9) mod 12 in
  let doy := (153 * mp + 2) / 5 + d - 1 in
  let doe := yoe * 365 + yoe / 4 - yoe / 100 + doy in
  era * 146097 + doe - 719468.

Definition civilFromDays (z : Z) : Z * Z * Z :=
  let z' := z + 719468 in
  let era := z' / 146097 in
  let doe := z' - era * 146097 in
  let yoe := (doe - doe / 1460 + doe / 36524 - doe / 146096) / 365 in
  let doy := doe - (365 * yoe + yoe / 4 - yoe / 100) in
  let mp := (5 * doy + 2) / 153 in
  let d := doy - (153 * mp + 2) / 5 + 1 in
  let m := if mp <? 10 then mp + 3 else mp - 9 in
  (if m <=? 2 then yoe + era * 400 + 1 else yoe + era * 400, m, d).

(** Day of the week, 0 for Sunday; 1970-01-01 was a Thursday. *)
Definition weekday (z : Z) : Z := (z + 4) mod 7.

Definition isBusinessDay (z : Z) : bool :=
  let w := weekday z in (1 <=? w) && (w <=? 5).

Definition digitOf (c : ascii) : option Z :=
  let n := Z.of_N (N_of_ascii c) in
  if (48 <=? n) && (n <=? 57) then Some (n - 48) else None.

Fixpoint numberOf (acc : Z) (s : string) : option Z :=
  match s with
  | EmptyString => Some acc
  | String c s' =>
      match digitOf c with
      | Some d => numberOf (10 * acc + d) s'
      | None => None
      end
  end.

Definition parseDate (s : string) : option Z :=
  if negb (Nat.eqb (String.length s) 10) then None
  else if negb (String.eqb (substring 4 1 s) "-" && String.eqb (substring 7 1 s) "-")
  then None
  else
    match numberOf 0 (substring 0 4 s), numberOf 0 (substring 5 2 s),
          numberOf 0 (substring 8 2 s) with
    | Some y, Some m, Some d =>
        let z := daysFromCivil y m d in
        if (1 <=? m) && (m <=? 12) && (1 <=? d)
           && bool_decide (civilFromDays z = (y, m, d))
        then Some z else None
    | _, _, _ => None
    end.

Definition digitChar (d : Z) : ascii := ascii_of_N (Z.to_N (48 + d mod 10)).

Definition pad2 (n : Z) : string :=
  String (digitChar (n / 10)) (String (digitChar n) EmptyString).

Definition pad4 (n : Z) : string :=
  String (digitChar (n / 1000)) (String (digitChar (n / 100)) (pad2 n)).

Definition formatDate (z : Z) : string :=
  let '(y, m, d) := civilFromDays z in
  (pad4 y ++ "-" ++ pad2 m ++ "-" ++ pad2 d)%string.

(** Business days in the days [from], [from + 1], ..., [from + n - 1]. *)
Fixpoint countBusinessDays (n : nat) (from : Z) : Z :=
  match n with
  | O => 0
  | S n' => (if isBusinessDay from then 1 else 0) + countBusinessDays n' (from + 1)
  end.

(** The day reached from [z] after [remaining] business days in direction
    [signal]; a week holds five of them, so [fuel] = 7 * [remaining] days
    are enough. *)
Fixpoint walk (fuel : nat) (signal : Z) (remaining : Z) (z : Z) : Z :=
  match fuel with
  | O => z
  | S fuel' =>
      if remaining <=? 0 then z
      else
        let z' := z + signal in
        walk fuel' signal (if isBusinessDay z' then remaining - 1 else remaining) z'
  end.

Definition addDays (z n : Z) : Z :=
  walk (Z.to_nat (7 * Z.abs n)) (if n <? 0 then -1 else 1) (Z.abs n) z.

(** Modelled from the spec: the business-day capability on the
    Monday-Friday calendar.  A moment is a day, or the invalid date of a
    string that is no date. *)
#[export] Instance calendar : BusinessCalendar := {|
  Moment := option Z;
  moment := parseDate;
  format := fun d => match d with Some z => formatDate z | None => "Invalid date" end;
  businessDiff := fun a b =>
    match a, b with
    | Some x, Some y => countBusinessDays (Z.to_nat (Z.max x y - Z.min x y)) (Z.min x y)
    | _, _ => 0
    end;
  businessAdd := fun d n => option_map (fun z => addDays z n) d;
  businessSubtract := fun d n => option_map (fun z => addDays z (- n)) d
|}.

(** The moment of a day. *)
Definition day (z : Z) : @Moment calendar := Some z.

End MonFri.

(** ** The parser on a store of objects

    The functions above take the issue as a value.  To say what a call does
    to the objects it is given, the same code is read here with objects that
    have an identity: every object with string properties (the issue's
    [fields], its history entries, their field changes, and the items the
    parser builds) is a cell of a store, [x.p = v] writes to a cell, and an
    object literal adds a cell.  Arrays are read-only in the parser, except
    the ones it builds itself, and are lists of references. *)

Inductive jsval :=
  | Undefined
  | Null
  | Str (s : string).

(** The properties of an object. *)
Abbreviation JSObject := (gmap string jsval).

Definition prop (o : JSObject) (k : string) : jsval :=
  match o !! k with
  | Some v => v
  | None => Undefined
  end.

Abbreviation loc := nat.
Abbreviation Store := (list JSObject).

Record HistoryRef := {
  history_ref : loc;
  items_ref : list loc
}.

Record IssueRef := {
  fields_ref : loc;
  histories_ref : list HistoryRef
}.

(** A computation on the store that may throw. *)
Definition M (A : Type) : Type := Store -> Store * result A.

Definition ret {A} (a : A) : M A := fun h => (h, Ok a).

Definition bindM {A B} (m : M A) (k : A -> M B) : M B :=
  fun h =>
    match m h with
    | (h', Ok a) => k a h'
    | (h', Throw e) => (h', Throw e)
    end.

Notation "x <~ m ;; k" := (bindM m (fun x => k))
  (at level 100, m at next level, right associativity).

(** [x.k] *)
Definition load (x : loc) (k : string) : M jsval :=
  fun h =>
    (h, match h !! x with
        | Some o => Ok (prop o k)
        | None => Throw (TypeError k)
        end).

(** [x.k = v] *)
Definition storeProp (x : loc) (k : string) (v : jsval) : M unit :=
  fun h =>
    match h !! x with
    | Some o => (<[x := <[k := v]> o]> h, Ok tt)
    | None => (h, Throw (TypeError k))
    end.

(** An object literal. *)
Definition alloc (o : JSObject) : M loc :=
  fun h => ((h ++ [o])%list, Ok (List.length h)).

Fixpoint mapM {A B} (f : A -> M B) (l : list A) : M (list B) :=
  match l with
  | [] => ret []
  | x :: l' => y <~ f x ;; ys <~ mapM f l' ;; ret (y :: ys)
  end.

Fixpoint filterM {A} (f : A -> M bool) (l : list A) : M (list A) :=
  match l with
  | [] => ret []
  | x :: l' => b <~ f x ;; ys <~ filterM f l' ;; ret (if b then x :: ys else ys)
  end.

Fixpoint findM {A} (f : A -> M bool) (l : list A) : M (option A) :=
  match l with
  | [] => ret None
  | x :: l' => b <~ f x ;; if b then ret (Some x) else findM f l'
  end.

Fixpoint foldM {A S} (f : S -> A -> M S) (l : list A) (s : S) : M S :=
  match l with
  | [] => ret s
  | x :: l' => s' <~ f s x ;; foldM f l' s'
  end.

(** [v === s] *)
Definition valEq (v : jsval) (s : string) : bool :=
  match v with
  | Str s' => String.eqb s' s
  | _ => false
  end.

Definition truthyVal (v : jsval) : bool :=
  match v with
  | Str s => negb (String.eqb s "")
  | _ => false
  end.

(** [a < b] on the timestamps, which are strings. *)
Definition valLt (a b : jsval) : bool :=
  match a, b with
  | Str x, Str y => String.ltb x y
  | _, _ => false
  end.

(** [v.split('T')[0]], which throws on [undefined] and [null]. *)
Definition valSplitT0 (v : jsval) : M string :=
  fun h =>
    (h, match v with
        | Str s => Ok (splitT0 s)
        | _ => Throw (TypeError "split")
        end).

Definition propAt (h : Store) (x : loc) (k : string) : jsval :=
  match h !! x with
  | Some o => prop o k
  | None => Undefined
  end.

Definition comparefnH (h : Store) (a b : loc) : Z :=
  if valLt (propAt h a "created") (propAt h b "created") then -1 else 1.

(** The comparator only reads, so the array is sorted against the store as
    it stands. *)
Definition sortH (items : list loc) : M (list loc) :=
  fun h => (h, Ok (sort (comparefnH h) items)).

Definition statusItemsH (history : HistoryRef) : M (list loc) :=
  filterM (fun historyItem => f <~ load historyItem "field" ;; ret (valEq f "status"))
    (items_ref history).

Definition computedItemH (entry0 : jsval) (item : loc) : M loc :=
  from <~ load item "fromString" ;;
  to <~ load item "toString" ;;
  alloc (<["fromString" := from]> (<["toString" := to]> (<["created" := entry0]> ∅))).

Fixpoint linkPreviousH (previous : jsval) (items : list loc) : M unit :=
  match items with
  | [] => ret tt
  | item :: rest =>
      _ <~ (if truthyVal previous then storeProp item "previousCreated" previous
            else ret tt) ;;
      c <~ load item "created" ;;
      linkPreviousH c rest
  end.

Definition processHistoriesH (issue : IssueRef) : M (list loc) :=
  entries <~ mapM (fun history =>
                     c <~ load (history_ref history) "created" ;;
                     items <~ statusItemsH history ;;
                     ret (c, items))
               (histories_ref issue) ;;
  nested <~ mapM (fun entry => mapM (computedItemH (fst entry)) (snd entry))
              (List.filter (fun entry => (0 <? length (snd entry))%nat) entries) ;;
  sortedItems <~ sortH (concat nested) ;;
  _ <~ linkPreviousH Undefined sortedItems ;;
  ret sortedItems.

Section ParserOnStore.
Context {cal : BusinessCalendar}.

Definition countEpisodeH (issue : IssueRef)
    (st : StagePassedDays * option Moment) (item : loc)
  : M (StagePassedDays * option Moment) :=
  p <~ load item "previousCreated" ;;
  _ <~ (if negb (truthyVal p)
        then c <~ load (fields_ref issue) "created" ;;
             storeProp item "previousCreated" c
        else ret tt) ;;
  p' <~ load item "previousCreated" ;;
  e <~ load item "created" ;;
  s1 <~ valSplitT0 p' ;;
  s2 <~ valSplitT0 e ;;
  let statusStart := moment s1 in
  let statusEnd := moment s2 in
  ret ({| didHappen := true;
          passedDays := passedDays (fst st) + businessDiff statusEnd statusStart |},
       match snd st with
       | Some d => Some d
       | None => Some statusStart
       end).

Definition activeStageH (issue : IssueRef) (sortedItems : list loc)
    (st : gmap string StagePassedDays * option Moment) (stage : string)
  : M (gmap string StagePassedDays * option Moment) :=
  selected <~ filterM (fun item => f <~ load item "fromString" ;; ret (valEq f stage))
                sortedItems ;;
  r <~ foldM (countEpisodeH issue) selected
         ({| didHappen := false; passedDays := 0 |}, snd st) ;;
  ret (<[stage := fst r]> (fst st), snd r).

Definition processActiveStatusesH (issue : IssueRef) (stages activeStatuses : list string)
    (sortedItems : list loc) (activeStatusesPassedDays : gmap string StagePassedDays)
  : M (gmap string StagePassedDays * option Moment) :=
  foldM (activeStageH issue sortedItems)
    (List.filter (fun stage => includes activeStatuses stage) stages)
    (activeStatusesPassedDays, None).

Definition inactiveStageH (sortedItems : list loc)
    (dates : gmap string Moment) (stage : string) : M (gmap string Moment) :=
  found <~ findM (fun item => t <~ load item "toString" ;; ret (valEq t stage))
             sortedItems ;;
  match found with
  | None => ret dates
  | Some firstStageItem =>
      c <~ load firstStageItem "created" ;;
      s <~ valSplitT0 c ;;
      ret (<[stage := moment s]> dates)
  end.

Definition processInactiveStatesH (stages activeStatuses : list string)
    (sortedItems : list loc) (inactiveStatusesDates : gmap string Moment)
  : M (gmap string Moment) :=
  foldM (inactiveStageH sortedItems)
    (List.filter (fun stage => negb (includes activeStatuses stage)) stages)
    inactiveStatusesDates.

Definition getStagingDatesH (issue : IssueRef) (workflow : Workflow)
    (activeStatuses : list string) : M (list string) :=
  let stages := Object_keys workflow in
  sortedItems <~ processHistoriesH issue ;;
  active <~ processActiveStatusesH issue stages activeStatuses sortedItems ∅ ;;
  inactiveStatusesDates <~
    processInactiveStatesH stages activeStatuses sortedItems ∅ ;;
  fun h =>
    (h, match inactiveStatusesDates !! "Done" with
        | None =>
            mapNotDoneIssue stages activeStatuses (fst active)
              inactiveStatusesDates (snd active)
        | Some _ =>
            mapDoneIssue stages activeStatuses (fst active) inactiveStatusesDates
        end).

End ParserOnStore.

(** Two items that record the same transition. *)
Definition sameTransition (a b : JiraComputedItem) : Prop :=
  fromString a = fromString b /\ toString a = toString b /\ created a = created b.


(** [m] keeps the first [n] cells of the store as they are, and what it
    returns has [Q]. *)
Definition frames {A} (n : nat) (m : M A) (Q : A -> Prop) : Prop :=
  forall h : Store, (n <= length h)%nat ->
    (n <= length (fst (m h)))%nat /\
    (forall x : loc, (x < n)%nat -> fst (m h) !! x = h !! x) /\
    (forall a, snd (m h) = Ok a -> Q a).

(** A reference to a cell that is not among the first [n]. *)
Definition fresh (n : nat) (x : loc) : Prop := (n <= x)%nat.

(** *** How a store holds an issue

    A value that is a string, [null] or [undefined], against the optional
    string of the records above. *)
Definition valOf (v : jsval) (s : option string) : Prop :=
  match v, s with
  | Str a, Some b => a = b
  | Null, None => True
  | Undefined, None => True
  | _, _ => False
  end.

Definition baseItemAt (h : Store) (x : loc) (b : JiraApiBaseItem) : Prop :=
  exists o, h !! x = Some o /\
    prop o "field" = Str (item_field b) /\
    valOf (prop o "fromString") (item_fromString b) /\
    valOf (prop o "toString") (item_toString b).

Definition createdAt (h : Store) (x : loc) (c : string) : Prop :=
  exists o, h !! x = Some o /\ prop o "created" = Str c.

Definition historyAt (h : Store) (r : HistoryRef) (history : JiraApiHistory) : Prop :=
  createdAt h (history_ref r) (history_created history) /\
  Forall2 (baseItemAt h) (items_ref r) (history_items history).

Definition issueAt (h : Store) (r : IssueRef) (issue : JiraApiIssue) : Prop :=
  createdAt h (fields_ref r) (fields_created issue) /\
  Forall2 (historyAt h) (histories_ref r) (changelog_histories issue).

Definition computedAt (h : Store) (xc : loc * JiraComputedItem) : Prop :=
  exists o, h !! fst xc = Some o /\
    valOf (prop o "fromString") (fromString (snd xc)) /\
    valOf (prop o "toString") (toString (snd xc)) /\
    prop o "created" = Str (created (snd xc)) /\
    valOf (prop o "previousCreated") (previousCreated (snd xc)).

(** An entry of the first [map] of [processHistories]: the time of a
    history entry and its status changes. *)
Definition entryAt (h : Store) (e : jsval * list loc)
    (pe : string * list JiraApiBaseItem) : Prop :=
  fst e = Str (fst pe) /\ Forall2 (baseItemAt h) (snd e) (snd pe).

(** The comparator of [sort], on references paired with what they hold. *)
Definition comparePairs (a b : loc * JiraComputedItem) : Z :=
  comparefn (snd a) (snd b).

(** [a] is not later than [b]. *)
Definition notLater (a b : JiraComputedItem) : Prop :=
  String.ltb (created b) (created a) = false.

(** [m] runs from store [h] to store [h'] and returns [a]. *)
Definition runs {A} (m : M A) (h h' : Store) (a : A) : Prop := m h = (h', Ok a).

(** ** Inputs used below *)

Definition transition (from to when : string) : JiraApiHistory :=
  {| history_created := when;
     history_items :=
       [ {| item_field := "status";
            item_fromString := Some from;
            item_toString := Some to |} ] |}.

Definition threeStages : Workflow :=
  [("Backlog", []); ("In Progress", []); ("Done", [])].

(** Scenario A: created on Monday 2024-01-01, in progress the day after,
    done on Monday 2024-01-08; with the timestamps as the scenario writes
    them, and with a time of day as the tracker sends them. *)
Definition scenarioA : JiraApiIssue :=
  {| fields_created := "2024-01-01";
     changelog_histories :=
       [ transition "Backlog" "In Progress" "2024-01-02";
         transition "In Progress" "Done" "2024-01-08" ] |}.

Definition scenarioA_timed : JiraApiIssue :=
  {| fields_created := "2024-01-01T09:00:00.000+0000";
     changelog_histories :=
       [ transition "Backlog" "In Progress" "2024-01-02T09:00:00.000+0000";
         transition "In Progress" "Done" "2024-01-08T09:00:00.000+0000" ] |}.

(** Scenario B: created on 2024-01-02, in progress the day after, not done. *)
Definition scenarioB : JiraApiIssue :=
  {| fields_created := "2024-01-02";
     changelog_histories :=
       [ transition "Backlog" "In Progress" "2024-01-03" ] |}.

Definition scenarioB_timed : JiraApiIssue :=
  {| fields_created := "2024-01-02T09:00:00.000+0000";
     changelog_histories :=
       [ transition "Backlog" "In Progress" "2024-01-03T09:00:00.000+0000" ] |}.

(** Scenario A, with times of day, as a store: the [fields] object, two
    history entries and their field changes. *)
Definition scenarioA_store : Store :=
  [ {[ "created" := Str "2024-01-01T09:00:00.000+0000" ]};
    {[ "created" := Str "2024-01-02T09:00:00.000+0000" ]};
    <["field" := Str "status"]> (<["fromString" := Str "Backlog"]>
      {[ "toString" := Str "In Progress" ]});
    {[ "created" := Str "2024-01-08T09:00:00.000+0000" ]};
    <["field" := Str "status"]> (<["fromString" := Str "In Progress"]>
      {[ "toString" := Str "Done" ]}) ].

Definition scenarioA_ref : IssueRef :=
  {| fields_ref := 0%nat;
     histories_ref :=
       [ {| history_ref := 1%nat; items_ref := [2%nat] |};
         {| history_ref := 3%nat; items_ref := [4%nat] |} ] |}.

(** A workflow with a review stage, and an issue that went through it:
    one business day in progress, two in review. *)
Definition reviewStages : Workflow :=
  [("In Progress", []); ("Review", []); ("Done", [])].

Definition reviewed : JiraApiIssue :=
  {| fields_created := "2024-01-01T09:00:00.000+0000";
     changelog_histories :=
       [ transition "In Progress" "Review" "2024-01-02T09:00:00.000+0000";
         transition "Review" "Done" "2024-01-04T09:00:00.000+0000" ] |}.

(** The same with the last stage spelled in lower case. *)
Definition lowerCaseStages : Workflow :=
  [("In Progress", []); ("Review", []); ("done", [])].

Definition reviewedLowerCase : JiraApiIssue :=
  {| fields_created := "2024-01-01T09:00:00.000+0000";
     changelog_histories :=
       [ transition "In Progress" "Review" "2024-01-03T09:00:00.000+0000";
         transition "Review" "done" "2024-01-08T09:00:00.000+0000" ] |}.



(** A workflow whose last stage is spelled in upper case, and an issue
    closed straight from the backlog. *)
Definition upperCaseStages : Workflow :=
  [("Backlog", []); ("In Progress", []); ("DONE", [])].

Definition closedFromBacklog : JiraApiIssue :=
  {| fields_created := "2024-01-01T09:00:00.000+0000";
     changelog_histories :=
       [ transition "Backlog" "DONE" "2024-01-08T09:00:00.000+0000" ] |}.

(** ** Notions used in the further properties *)

(** What a computed item records of a status change, without the link to
    the change before it. *)
Definition transitionOf (item : JiraComputedItem)
  : option string * option string * string :=
  (fromString item, toString item, created item).

(** The status changes of the changelog, each with the time of its history
    entry, in changelog order. *)
Definition statusChanges (issue : JiraApiIssue)
  : list (option string * option string * string) :=
  concat
    (map (fun history =>
            map (fun item =>
                   (item_fromString item, item_toString item, history_created history))
              (statusItems history))
       (changelog_histories issue)).

(** [item.fromString === stage]: the item closes an episode of [stage]. *)
Definition leaves (stage : string) (item : JiraComputedItem) : bool :=
  strictEq (fromString item) stage.

(** [statusEnd.businessDiff(statusStart)] for the episode an item closes. *)
Definition episodeDays {cal : BusinessCalendar} (issue : JiraApiIssue)
    (item : JiraComputedItem) : Z :=
  businessDiff (moment (splitT0 (created item)))
    (moment (splitT0 (episodeStart issue item))).

Definition sumZ (l : list Z) : Z := fold_right Z.add 0 l.

(** The duration record of a stage, read off the transitions. *)
Definition recordOf {cal : BusinessCalendar} (issue : JiraApiIssue) (stage : string)
    (items : list JiraComputedItem) : StagePassedDays :=
  {| didHappen := existsb (leaves stage) items;
     passedDays := sumZ (map (episodeDays issue) (List.filter (leaves stage) items)) |}.

(** The start of the first episode of the first stage of [stages] that has
    one. *)
Definition firstEpisodeStart {cal : BusinessCalendar} (issue : JiraApiIssue)
    (items : list JiraComputedItem) (stages : list string) : option Moment :=
  match List.find (fun stage => existsb (leaves stage) items) stages with
  | Some stage =>
      option_map (fun item => moment (splitT0 (episodeStart issue item)))
        (List.find (leaves stage) items)
  | None => None
  end.

(** An item after [processActiveStatuses] has gone through [stages]: its
    callback has visited the items that leave one of them. *)
Definition visited (issue : JiraApiIssue) (stages : list string)
    (item : JiraComputedItem) : JiraComputedItem :=
  if existsb (fun stage => leaves stage item) stages then touch issue item else item.

(** The active stages of the workflow, in workflow order. *)
Definition activeStages (workflow : Workflow) (activeStatuses : list string)
  : list string :=
  List.filter (fun stage => includes activeStatuses stage) (Object_keys workflow).

(** The business days the forward simulation adds to its cursor at a stage,
    if it adds any. *)
Definition forwardDays (activeStatuses : list string)
    (active : gmap string StagePassedDays) (stage : string) : option Z :=
  if includes activeStatuses stage && negb (isDone stage)
  then match active !! stage with
       | Some r => if didHappen r then Some (passedDays r) else None
       | None => None
       end
  else None.

(** The cursor of the forward simulation after the stages [pre]. *)
Definition forwardCursor {cal : BusinessCalendar} (activeStatuses : list string)
    (active : gmap string StagePassedDays) (pre : list string) (anchor : Moment)
  : Moment :=
  fold_left (fun c stage =>
               match forwardDays activeStatuses active stage with
               | Some n => businessAdd c n
               | None => c
               end) pre anchor.

(** The cursor of the backward simulation after the statuses [visits],
    started on the date [d]. *)
Definition backwardCursor {cal : BusinessCalendar}
    (active : gmap string StagePassedDays) (visits : list string) (d : Moment)
  : Moment :=
  fold_left (fun c status =>
               match active !! status with
               | Some r => if didHappen r then businessSubtract c (passedDays r) else c
               | None => c
               end) visits d.

(** A stage at which the forward simulation formats its cursor although it is
    not an active stage: its name is a spelling of [done] and a date is
    recorded for it. *)
Definition formatsCursor {cal : BusinessCalendar} (inactive : gmap string Moment)
    (stage : string) : bool :=
  isDone stage && isSet (inactive !! stage).

(** The issue without the field changes that are no status changes. *)
Definition statusOnly (issue : JiraApiIssue) : JiraApiIssue :=
  {| fields_created := fields_created issue;
     changelog_histories :=
       map (fun history =>
              {| history_created := history_created history;
                 history_items := statusItems history |})
         (changelog_histories issue) |}.

(** An issue that went into review and came back, and is not done. *)
Definition bounced : JiraApiIssue :=
  {| fields_created := "2024-01-01T09:00:00.000+0000";
     changelog_histories :=
       [ transition "In Progress" "Review" "2024-01-03T09:00:00.000+0000";
         transition "Review" "In Progress" "2024-01-05T09:00:00.000+0000" ] |}.

(** An issue with a change of assignee beside its status change. *)
Definition reassigned : JiraApiIssue :=
  {| fields_created := "2024-01-01T09:00:00.000+0000";
     changelog_histories :=
       [ {| history_created := "2024-01-02T09:00:00.000+0000";
            history_items :=
              [ {| item_field := "assignee";
                   item_fromString := None;
                   item_toString := Some "Ada" |};
                {| item_field := "status";
                   item_fromString := Some "In Progress";
                   item_toString := Some "Done" |} ] |};
         {| history_created := "2024-01-03T09:00:00.000+0000";
            history_items :=
              [ {| item_field := "assignee";
                   item_fromString := Some "Ada";
                   item_toString := Some "Bo" |} ] |} ] |}.

(** * Properties *)

(** ** The loops *)

Lemma includes_In (xs : list string) (x : string) :
  includes xs x = true <-> In x xs.
Proof.
  unfold includes. rewrite existsb_exists. split.
  - intros [y [Hy He]]. apply String.eqb_eq in He. now subst.
  - intros H. exists x. split; [assumption | apply String.eqb_refl].
Qed.

Lemma includes_not_In (xs : list string) (x : string) :
  includes xs x = false <-> ~ In x xs.
Proof.
  rewrite <- includes_In. destruct (includes xs x); split; congruence.
Qed.

Lemma mapWith_length {A B S} (f : S -> A -> result (B * S)) (l : list A) :
  forall s rs, mapWith f l s = Ok rs -> length (fst rs) = length l.
Proof.
  induction l as [|x l IH]; simpl; intros s rs H.
  - injection H as <-. reflexivity.
  - destruct (f s x) as [r|e]; simpl in H; [|discriminate].
    destruct (mapWith f l (snd r)) as [rs'|e] eqn:E; simpl in H; [|discriminate].
    injection H as <-. simpl. f_equal. eapply IH. eassumption.
Qed.

(** Every element of the result of [mapWith] is what the callback returned
    for the element at the same position, in some state of the walk. *)
Lemma mapWith_Forall2 {A B S} (f : S -> A -> result (B * S)) (l : list A) :
  forall s rs, mapWith f l s = Ok rs ->
    Forall2 (fun x y => exists c c', f c x = Ok (y, c')) l (fst rs).
Proof.
  induction l as [|x l IH]; simpl; intros s rs H.
  - injection H as <-. constructor.
  - destruct (f s x) as [[y c']|e] eqn:Ef; simpl in H; [|discriminate].
    destruct (mapWith f l c') as [rs'|e] eqn:E; simpl in H; [|discriminate].
    injection H as <-. simpl. constructor.
    + exists s, c'. assumption.
    + eapply IH. eassumption.
Qed.

Lemma forEach_app {A S} (f : S -> A -> result S) (l1 l2 : list A) (s : S) :
  forEach f (l1 ++ l2) s = (s' <- forEach f l1 s ;; forEach f l2 s').
Proof.
  revert s. induction l1 as [|x l1 IH]; simpl; intros s; [reflexivity|].
  destruct (f s x); simpl; [apply IH | reflexivity].
Qed.


Section Properties.
Context {cal : BusinessCalendar}.

(** ** The tables *)




(** The entry of a stage in the table of inactive dates. *)
Lemma processInactiveStates_lookup (stages activeStatuses : list string)
    (sortedItems : list JiraComputedItem) (stage : string) :
  forall dates,
    processInactiveStates stages activeStatuses sortedItems dates !! stage =
    if includes stages stage && negb (includes activeStatuses stage)
    then match List.find (fun item => strictEq (toString item) stage) sortedItems with
         | Some item => Some (moment (splitT0 (created item)))
         | None => dates !! stage
         end
    else dates !! stage.
Proof.
  unfold processInactiveStates.
  induction stages as [|s stages IH] using rev_ind; intros dates.
  - reflexivity.
  - rewrite List.filter_app, fold_left_app.
    assert (Hinc : includes (stages ++ [s]) stage =
                   includes stages stage || String.eqb stage s).
    { unfold includes. rewrite existsb_app. simpl. now rewrite orb_false_r. }
    rewrite Hinc. simpl.
    destruct (includes activeStatuses s) eqn:Hs; simpl.
    + rewrite IH. destruct (String.eqb stage s) eqn:E.
      * apply String.eqb_eq in E. subst s. rewrite Hs.
        simpl. now rewrite !andb_false_r.
      * now rewrite orb_false_r.
    + unfold inactiveStage at 1.
      destruct (String.eqb stage s) eqn:E.
      * apply String.eqb_eq in E. subst s. rewrite Hs, orb_true_r. simpl.
        destruct (List.find _ sortedItems) as [item|].
        -- apply lookup_insert_eq.
        -- rewrite IH. now destruct (_ && _).
      * rewrite orb_false_r.
        assert (s <> stage) by (intros ->; rewrite String.eqb_refl in E; discriminate).
        destruct (List.find (fun item => strictEq (toString item) s) sortedItems).
        -- rewrite lookup_insert_ne by assumption. apply IH.
        -- apply IH.
Qed.

Lemma touch_sameTransition (issue : JiraApiIssue) (item : JiraComputedItem) :
  sameTransition item (touch issue item).
Proof.
  unfold touch. destruct (truthy (previousCreated item)); repeat split.
Qed.

(** The callback of [reduce] only writes [previousCreated]. *)
Lemma processActiveStatuses_items (issue : JiraApiIssue) (stages : list string) :
  forall st,
    Forall2 sameTransition (as_items st)
      (as_items (fold_left (activeStage issue) stages st)).
Proof.
  induction stages as [|stage stages IH] using rev_ind; intros st.
  - simpl. induction (as_items st); constructor; [repeat split | assumption].
  - rewrite fold_left_app. simpl.
    specialize (IH st). revert IH.
    generalize (as_items (fold_left (activeStage issue) stages st)).
    generalize (as_items st).
    induction 1 as [|a b l l' Hab Hl IHl]; simpl; constructor; [|assumption].
    destruct Hab as (Hf & Ht & Hc).
    destruct (strictEq (fromString b) stage).
    + destruct (touch_sameTransition issue b) as (Hf' & Ht' & Hc').
      repeat split; congruence.
    + repeat split; assumption.
Qed.

Lemma find_sameTransition (stage : string) (l l' : list JiraComputedItem) :
  Forall2 sameTransition l l' ->
  option_map created (List.find (fun item => strictEq (toString item) stage) l') =
  option_map created (List.find (fun item => strictEq (toString item) stage) l).
Proof.
  induction 1 as [|a b l l' Hab Hl IH]; simpl; [reflexivity|].
  destruct Hab as (_ & Ht & Hc). rewrite <- Ht.
  destruct (strictEq (toString a) stage); simpl; congruence.
Qed.

(** The inactive date of a stage is the day of the first transition into
    it, for an inactive stage of the workflow, and unset otherwise. *)
Lemma inactiveTable_lookup (issue : JiraApiIssue) (workflow : Workflow)
    (activeStatuses : list string) (stage : string) :
  inactiveTable issue workflow activeStatuses !! stage =
  if includes (Object_keys workflow) stage && negb (includes activeStatuses stage)
  then option_map (fun item => moment (splitT0 (created item)))
         (List.find (fun item => strictEq (toString item) stage)
            (processHistories issue))
  else None.
Proof.
  unfold inactiveTable. rewrite processInactiveStates_lookup.
  destruct (_ && _); [|apply lookup_empty].
  pose proof (find_sameTransition stage _ _
    (processActiveStatuses_items issue
       (List.filter (fun s => includes activeStatuses s) (Object_keys workflow))
       {| as_passedDays := ∅; as_date := None; as_items := processHistories issue |}))
    as H.
  simpl in H. unfold activeTable, processActiveStatuses.
  destruct (List.find _ (as_items _)) as [item'|];
    destruct (List.find _ (processHistories issue)) as [item|];
    simpl in *; try discriminate.
  - injection H as ->. reflexivity.
  - apply lookup_empty.
Qed.



Lemma getStagingDates_eq (issue : JiraApiIssue) (workflow : Workflow)
    (activeStatuses : list string) :
  getStagingDates issue workflow activeStatuses =
  let active := activeTable issue workflow activeStatuses in
  let inactive := inactiveTable issue workflow activeStatuses in
  if reachedDone issue workflow activeStatuses
  then mapDoneIssue (Object_keys workflow) activeStatuses (as_passedDays active) inactive
  else mapNotDoneIssue (Object_keys workflow) activeStatuses (as_passedDays active)
         inactive (as_date active).
Proof.
  unfold getStagingDates, reachedDone, inactiveTable, activeTable. simpl.
  destruct (_ !! "Done"); reflexivity.
Qed.

(** ** Shape of the result *)


(** ** An issue without status changes *)




End Properties.

(** ** The Monday-Friday calendar *)

(** Writing a day and reading it back gives the day, for the days of the
    years 2023 to 2025, and 2024-02-29 is a date where 2023-02-29 is not. *)
Example calendar_reads_what_it_writes :
  forallb (fun z => match MonFri.parseDate (MonFri.formatDate z) with
                    | Some z' => Z.eqb z z'
                    | None => false
                    end) (seqZ 19358 1096) = true /\
  MonFri.formatDate 19358 = "2023-01-01" /\
  MonFri.formatDate 20453 = "2025-12-31" /\
  MonFri.parseDate "2024-02-29" = Some 19782 /\
  MonFri.parseDate "2023-02-29" = None.
Proof. repeat split; vm_compute; reflexivity. Qed.

(** The days of scenario A: Monday 2024-01-01, Tuesday 2024-01-02 and Monday
    2024-01-08, with four business days from the second to the third. *)
Example calendar_scenario_days :
  option_map MonFri.weekday (MonFri.parseDate "2024-01-01") = Some 1 /\
  option_map MonFri.weekday (MonFri.parseDate "2024-01-02") = Some 2 /\
  option_map MonFri.weekday (MonFri.parseDate "2024-01-08") = Some 1 /\
  businessDiff (BusinessCalendar := MonFri.calendar)
    (moment "2024-01-08") (moment "2024-01-02") = 4.
Proof. repeat split; vm_compute; reflexivity. Qed.

(** ** The two scenarios *)

(** Scenario A on any calendar: the date of [Backlog] is empty, the one of
    [In Progress] is the day of [Done] less the business days between the
    two transitions. *)
Lemma scenarioA_any_calendar (cal : BusinessCalendar) :
  getStagingDates scenarioA threeStages ["In Progress"] =
  Ok [ "";
       format (businessSubtract (moment "2024-01-08")
                 (0 + businessDiff (moment "2024-01-08") (moment "2024-01-02")));
       format (moment "2024-01-08") ].
Proof. vm_compute. reflexivity. Qed.

(** C2, as the code has it: in scenario A no transition enters [Backlog], so
    its date is empty; [In Progress] lasted four business days, which the
    backward simulation takes off the day of [Done]. *)
Theorem scenarioA_dates :
  getStagingDates (cal := MonFri.calendar) scenarioA threeStages ["In Progress"] =
  Ok [""; "2024-01-02"; "2024-01-08"] /\
  getStagingDates (cal := MonFri.calendar) scenarioA_timed threeStages ["In Progress"] =
  Ok [""; "2024-01-02"; "2024-01-08"].
Proof. split; vm_compute; reflexivity. Qed.

Lemma scenarioA_not_as_expected :
  getStagingDates (cal := MonFri.calendar) scenarioA threeStages ["In Progress"] <>
  Ok ["2024-01-02"; "2024-01-02"; "2024-01-08"].
Proof. vm_compute. discriminate. Qed.

(** C3, as the code has it: in scenario B no transition enters [Backlog] and
    none leaves [In Progress], so every date is empty, on every calendar. *)
Theorem scenarioB_dates (cal : BusinessCalendar) :
  getStagingDates scenarioB threeStages ["In Progress"] = Ok [""; ""; ""] /\
  getStagingDates scenarioB_timed threeStages ["In Progress"] = Ok [""; ""; ""].
Proof. split; vm_compute; reflexivity. Qed.

Lemma scenarioB_not_as_expected :
  getStagingDates (cal := MonFri.calendar) scenarioB threeStages ["In Progress"] <>
  Ok ["2024-01-03"; "2024-01-03"; ""].
Proof. vm_compute. discriminate. Qed.

(** ** The backward simulation *)

Section Backward.
Context {cal : BusinessCalendar}.

Lemma doneStep_keeps (active : gmap string StagePassedDays) (st st' : DoneState)
    (status other : string) :
  doneStep active st status = Ok st' -> other <> status ->
  snd st' !! other = snd st !! other.
Proof.
  unfold doneStep. intros H Hne.
  destruct (active !! status) as [r|]; [|discriminate].
  destruct (negb (didHappen r)).
  - injection H as <-. reflexivity.
  - destruct (fst st); [|discriminate].
    injection H as <-. simpl. apply lookup_insert_ne. congruence.
Qed.

(** A status that the loop does not visit keeps its simulated date. *)
Lemma doneLoop_keeps (active : gmap string StagePassedDays) (l : list string)
    (other : string) :
  forall st st', forEach (doneStep active) l st = Ok st' -> ~ In other l ->
    snd st' !! other = snd st !! other.
Proof.
  induction l as [|x l IH]; simpl; intros st st' H Hn.
  - injection H as <-. reflexivity.
  - destruct (doneStep active st x) as [s1|e] eqn:E; simpl in H; [|discriminate].
    rewrite (IH _ _ H) by tauto.
    eapply doneStep_keeps; [eassumption|]. intros ->. apply Hn. now left.
Qed.



(** C1, as the code has it: in the backward simulation the days of an active
    stage that happened are taken off the cursor first, and the result is
    both the date emitted for the stage and the cursor handed to the next
    (earlier) active status.  [cursor] is the cursor when the walk reaches
    [status], after the statuses listed behind it. *)
Theorem backward_date_after_subtraction
    (stages activeStatuses pre post : list string) (status : string)
    (active : gmap string StagePassedDays) (inactive : gmap string Moment)
    (r : StagePassedDays) (cursor : Moment) (sim : gmap string Moment)
    (dates : list string) (i : nat) :
  activeStatuses = (pre ++ status :: post)%list ->
  ~ In status pre ->
  active !! status = Some r ->
  didHappen r = true ->
  forEach (doneStep active) (rev post) (doneInit inactive) = Ok (Some cursor, sim) ->
  mapDoneIssue stages activeStatuses active inactive = Ok dates ->
  stages !! i = Some status ->
  let date := businessSubtract cursor (passedDays r) in
  forEach (doneStep active) (rev (status :: post)) (doneInit inactive) =
    Ok (Some date, <[status := date]> sim) /\
  dates !! i = Some (format date).
Proof.
  intros Hact Hpre Hr Hd Hpost Hmap Hi date.
  assert (Hstep : forEach (doneStep active) (rev (status :: post)) (doneInit inactive) =
                  Ok (Some date, <[status := date]> sim)).
  { simpl. rewrite forEach_app, Hpost. simpl.
    unfold doneStep. rewrite Hr, Hd. reflexivity. }
  split; [assumption|].
  unfold mapDoneIssue in Hmap.
  assert (Hrev : rev activeStatuses = (rev (status :: post) ++ rev pre)%list).
  { subst activeStatuses. rewrite rev_app_distr. reflexivity. }
  rewrite Hrev, forEach_app, Hstep in Hmap. simpl in Hmap.
  destruct (forEach (doneStep active) (rev pre) _) as [st|e] eqn:E;
    simpl in Hmap; [|discriminate].
  injection Hmap as <-.
  rewrite list_lookup_fmap, Hi. simpl. f_equal.
  unfold doneDate.
  assert (Hinc : includes activeStatuses status = true).
  { apply includes_In. subst activeStatuses. apply in_or_app. right. now left. }
  rewrite Hinc.
  rewrite (doneLoop_keeps _ _ status _ _ E) by (rewrite <- in_rev; assumption).
  simpl. rewrite lookup_insert_eq. reflexivity.
Qed.


End Backward.

(** ** Inactive stages *)

Section Inactive.
Context {cal : BusinessCalendar}.

(** The shape of the result, as both simulations build it. *)
Lemma getStagingDates_shape (issue : JiraApiIssue) (workflow : Workflow)
    (activeStatuses dates : list string) :
  getStagingDates issue workflow activeStatuses = Ok dates ->
  let stages := Object_keys workflow in
  let active := as_passedDays (activeTable issue workflow activeStatuses) in
  let inactive := inactiveTable issue workflow activeStatuses in
  if reachedDone issue workflow activeStatuses
  then exists st,
         forEach (doneStep active) (rev activeStatuses) (doneInit inactive) = Ok st /\
         dates = map (fun stage => doneDate activeStatuses (snd st) inactive stage) stages
  else Forall2
         (fun stage date =>
            exists c c', notDoneStep activeStatuses active inactive c stage = Ok (date, c'))
         stages dates.
Proof.
  rewrite getStagingDates_eq. simpl.
  destruct (reachedDone issue workflow activeStatuses).
  - unfold mapDoneIssue.
    destruct (forEach _ _ _) as [st|e]; simpl; [|discriminate].
    intros H. injection H as <-. exists st. split; reflexivity.
  - unfold mapNotDoneIssue.
    destruct (mapWith _ _ _) as [r|e] eqn:E; simpl; [|discriminate].
    intros H. injection H as <-. eapply mapWith_Forall2. eassumption.
Qed.

(** C5, as the code has it: when [getStagingDates] returns, the date of an
    inactive stage that some transition enters is the day of the first such
    transition, in the backward simulation for every such stage and in the
    forward simulation for every such stage whose name is not a spelling of
    [done].  A stage named exactly [Done] that is entered selects the
    backward simulation, so it is covered. *)
Theorem inactive_stage_directness (issue : JiraApiIssue) (workflow : Workflow)
    (activeStatuses dates : list string) (i : nat) (stage : string)
    (item : JiraComputedItem) :
  getStagingDates issue workflow activeStatuses = Ok dates ->
  Object_keys workflow !! i = Some stage ->
  includes activeStatuses stage = false ->
  List.find (fun item => strictEq (toString item) stage) (processHistories issue)
    = Some item ->
  stage = "Done" \/ isDone stage = false \/
    reachedDone issue workflow activeStatuses = true ->
  dates !! i = Some (format (moment (splitT0 (created item)))).
Proof.
  intros Hget Hi Hinact Hfind Hcase.
  assert (Hstage : includes (Object_keys workflow) stage = true).
  { apply includes_In. apply list_elem_of_In. eapply list_elem_of_lookup_2. eassumption. }
  assert (Hdate : inactiveTable issue workflow activeStatuses !! stage =
                  Some (moment (splitT0 (created item)))).
  { rewrite inactiveTable_lookup, Hstage, Hinact, Hfind. reflexivity. }
  assert (Hcase' : isDone stage = false \/
                   reachedDone issue workflow activeStatuses = true).
  { destruct Hcase as [->|[H|H]]; [right | now left | now right].
    unfold reachedDone. rewrite Hdate. reflexivity. }
  pose proof (getStagingDates_shape _ _ _ _ Hget) as Hshape. simpl in Hshape.
  destruct (reachedDone issue workflow activeStatuses) eqn:Hdone.
  - destruct Hshape as (st & _ & ->).
    rewrite list_lookup_fmap, Hi. simpl. unfold doneDate.
    rewrite Hinact, Hdate. reflexivity.
  - destruct Hcase' as [Hnd|]; [|discriminate].
    destruct (Forall2_lookup_l _ _ _ _ _ Hshape Hi) as (date & Hdi & c & c' & Hstep).
    rewrite Hdi. unfold notDoneStep in Hstep.
    rewrite Hinact, Hnd, Hdate in Hstep. simpl in Hstep.
    injection Hstep as <- _. reflexivity.
Qed.

End Inactive.

(** ** Entries of [activeStatuses] outside the workflow, and failures *)

Lemma mapWith_ext_in {A B S} (f g : S -> A -> result (B * S)) (l : list A) :
  (forall x, In x l -> forall s, f s x = g s x) ->
  forall s, mapWith f l s = mapWith g l s.
Proof.
  induction l as [|x l IH]; intros H s; [reflexivity|].
  simpl. rewrite (H x (or_introl eq_refl)).
  destruct (g s x) as [r|e]; simpl; [|reflexivity].
  rewrite IH; [reflexivity|]. intros y Hy. apply H. now right.
Qed.


Section Failures.
Context {cal : BusinessCalendar}.








End Failures.

(** ** Instances on the Monday-Friday calendar *)

Section MondayToFriday.
#[local] Existing Instance MonFri.calendar.

(** Scenario A: the walk reaches [In Progress] with the cursor on Monday
    2024-01-08, the day of [Done], and emits Tuesday 2024-01-02. *)
Lemma backward_date_after_subtraction_witness :
  [""; "2024-01-02"; "2024-01-08"] !! 1%nat =
  Some (format (businessSubtract (MonFri.day 19730) 4)).
Proof.
  refine (proj2 (backward_date_after_subtraction (cal := MonFri.calendar)
    (Object_keys threeStages) ["In Progress"] [] [] "In Progress"
    (as_passedDays (activeTable scenarioA threeStages ["In Progress"]))
    (inactiveTable scenarioA threeStages ["In Progress"])
    {| didHappen := true; passedDays := 4 |} (MonFri.day 19730) ∅
    [""; "2024-01-02"; "2024-01-08"] 1%nat
    eq_refl (fun H : In "In Progress" [] => H) _ eq_refl _ _ eq_refl));
    vm_compute; reflexivity.
Defined.

(** C1 as stated fails: in scenario A the cursor stands on 2024-01-08 before
    the days of [In Progress] are subtracted, and the date emitted for
    [In Progress] is 2024-01-02. *)
Lemma backward_date_is_not_cursor_before :
  ~ (forall (stages activeStatuses pre post : list string) (status : string)
       (active : gmap string StagePassedDays) (inactive : gmap string Moment)
       (r : StagePassedDays) (cursor : Moment) (sim : gmap string Moment)
       (dates : list string) (i : nat),
       activeStatuses = (pre ++ status :: post)%list ->
       ~ In status pre ->
       active !! status = Some r ->
       didHappen r = true ->
       forEach (doneStep active) (rev post) (doneInit inactive) = Ok (Some cursor, sim) ->
       mapDoneIssue stages activeStatuses active inactive = Ok dates ->
       stages !! i = Some status ->
       dates !! i = Some (format cursor)).
Proof.
  intros H.
  assert (Hc : [""; "2024-01-02"; "2024-01-08"] !! 1%nat =
               Some (format (MonFri.day 19730))).
  { refine (H (Object_keys threeStages) ["In Progress"] [] [] "In Progress"
      (as_passedDays (activeTable scenarioA threeStages ["In Progress"]))
      (inactiveTable scenarioA threeStages ["In Progress"])
      {| didHappen := true; passedDays := 4 |} (MonFri.day 19730) ∅
      [""; "2024-01-02"; "2024-01-08"] 1%nat
      eq_refl (fun H : In "In Progress" [] => H) _ eq_refl _ _ eq_refl);
      vm_compute; reflexivity. }
  vm_compute in Hc. discriminate.
Qed.



Lemma inactive_stage_directness_witness :
  ["2024-01-01"; "2024-01-02"; "2024-01-04"] !! 2%nat =
  Some (format (moment (splitT0 "2024-01-04T09:00:00.000+0000"))).
Proof.
  refine (inactive_stage_directness (cal := MonFri.calendar)
            reviewed reviewStages ["In Progress"; "Review"]
            ["2024-01-01"; "2024-01-02"; "2024-01-04"] 2%nat "Done"
            {| fromString := Some "Review"; toString := Some "Done";
               created := "2024-01-04T09:00:00.000+0000";
               previousCreated := Some "2024-01-02T09:00:00.000+0000" |}
            _ eq_refl eq_refl _ (or_introl eq_refl));
    vm_compute; reflexivity.
Defined.

(** C5 as stated fails: the stage [done] is inactive and first entered on
    2024-01-08, and the forward simulation emits 2024-01-03 for it, the date
    its cursor has reached. *)
Lemma inactive_stage_not_direct :
  ~ (forall (issue : JiraApiIssue) (workflow : Workflow)
       (activeStatuses dates : list string) (i : nat) (stage : string)
       (item : JiraComputedItem),
       getStagingDates issue workflow activeStatuses = Ok dates ->
       Object_keys workflow !! i = Some stage ->
       includes activeStatuses stage = false ->
       List.find (fun item => strictEq (toString item) stage) (processHistories issue)
         = Some item ->
       dates !! i = Some (format (moment (splitT0 (created item))))).
Proof.
  intros H.
  assert (Hc : ["2024-01-01"; "2024-01-03"; "2024-01-03"] !! 2%nat =
               Some (format (moment (splitT0 "2024-01-08T09:00:00.000+0000")))).
  { refine (H reviewedLowerCase lowerCaseStages ["In Progress"]
      ["2024-01-01"; "2024-01-03"; "2024-01-03"] 2%nat "done"
      {| fromString := Some "Review"; toString := Some "done";
         created := "2024-01-08T09:00:00.000+0000";
         previousCreated := Some "2024-01-03T09:00:00.000+0000" |}
      _ eq_refl eq_refl _); vm_compute; reflexivity. }
  vm_compute in Hc. discriminate.
Qed.





(** C10 fails on the code: every entry of [activeStatuses] is a stage of the
    workflow, the issue went from [Backlog] to [DONE], and the forward
    simulation formats a date that was never set. *)
Theorem forward_fails_on_spelling_of_done :
  (forall s, In s ["In Progress"] -> In s (Object_keys upperCaseStages)) /\
  getStagingDates closedFromBacklog upperCaseStages ["In Progress"] =
  Throw (TypeError "format").
Proof.
  split.
  - simpl. intros s [<-|[]]. tauto.
  - vm_compute. reflexivity.
Qed.

End MondayToFriday.

(** ** What a call does to the store *)

Section Frame.
Context (n : nat).

Lemma frames_ret {A} (a : A) (Q : A -> Prop) : Q a -> frames n (ret a) Q.
Proof.
  intros Ha h Hn. simpl. repeat split; [assumption|].
  intros a' H. injection H as <-. assumption.
Qed.

Lemma frames_bind {A B} (m : M A) (k : A -> M B) (Q : A -> Prop) (R : B -> Prop) :
  frames n m Q -> (forall a, Q a -> frames n (k a) R) -> frames n (bindM m k) R.
Proof.
  intros Hm Hk h Hn. unfold bindM.
  destruct (Hm h Hn) as (Hlen & Hkeep & Hq).
  destruct (m h) as [h' [a|e]]; simpl in *.
  - destruct (Hk a (Hq a eq_refl) h' Hlen) as (Hlen' & Hkeep' & Hr).
    repeat split; [assumption | | assumption].
    intros x Hx. rewrite Hkeep' by assumption. now apply Hkeep.
  - repeat split; [assumption | assumption | discriminate].
Qed.

Lemma frames_weaken {A} (m : M A) (Q Q' : A -> Prop) :
  (forall a, Q a -> Q' a) -> frames n m Q -> frames n m Q'.
Proof.
  intros Hq Hm h Hn. destruct (Hm h Hn) as (Hlen & Hkeep & H).
  repeat split; auto.
Qed.

Lemma frames_load (x : loc) (k : string) : frames n (load x k) (fun _ => True).
Proof. intros h Hn. simpl. repeat split; auto. Qed.

Lemma frames_valSplitT0 (v : jsval) : frames n (valSplitT0 v) (fun _ => True).
Proof. intros h Hn. simpl. repeat split; auto. Qed.

(** A write to a fresh cell. *)
Lemma frames_storeProp (x : loc) (k : string) (v : jsval) :
  fresh n x -> frames n (storeProp x k v) (fun _ => True).
Proof.
  unfold fresh. intros Hx h Hn. unfold storeProp.
  destruct (h !! x) as [o|]; simpl.
  - rewrite length_insert.
    split; [assumption|]. split; [|auto].
    intros y Hy. apply list_lookup_insert_ne. lia.
  - repeat split; auto.
Qed.

(** An object literal is a fresh cell. *)
Lemma frames_alloc (o : JSObject) : frames n (alloc o) (fresh n).
Proof.
  intros h Hn. unfold alloc, fresh. simpl. rewrite length_app. simpl.
  repeat split; [lia | | ].
  - intros x Hx. apply lookup_app_l. lia.
  - intros a H. injection H as <-. assumption.
Qed.

Lemma frames_mapM {A B} (f : A -> M B) (P : A -> Prop) (Q : B -> Prop) (l : list A) :
  (forall x, P x -> frames n (f x) Q) -> Forall P l -> frames n (mapM f l) (Forall Q).
Proof.
  intros Hf. induction 1 as [|x l Hx Hl IH]; simpl.
  - apply frames_ret. constructor.
  - eapply frames_bind; [apply Hf, Hx|]. intros y Hy.
    eapply frames_bind; [apply IH|]. intros ys Hys.
    apply frames_ret. constructor; assumption.
Qed.

Lemma frames_filterM {A} (f : A -> M bool) (P : A -> Prop) (l : list A) :
  (forall x, frames n (f x) (fun _ => True)) -> Forall P l ->
  frames n (filterM f l) (Forall P).
Proof.
  intros Hf. induction 1 as [|x l Hx Hl IH]; simpl.
  - apply frames_ret. constructor.
  - eapply frames_bind; [apply Hf|]. intros b _.
    eapply frames_bind; [apply IH|]. intros ys Hys.
    apply frames_ret. destruct b; [constructor|]; assumption.
Qed.

Lemma frames_findM {A} (f : A -> M bool) (P : A -> Prop) (l : list A) :
  (forall x, frames n (f x) (fun _ => True)) -> Forall P l ->
  frames n (findM f l) (fun found => forall x, found = Some x -> P x).
Proof.
  intros Hf. induction 1 as [|x l Hx Hl IH]; simpl.
  - apply frames_ret. discriminate.
  - eapply frames_bind; [apply Hf|]. intros b _. destruct b; [|apply IH].
    apply frames_ret. intros y H. injection H as <-. assumption.
Qed.

Lemma frames_foldM {A S} (f : S -> A -> M S) (P : A -> Prop) (l : list A) :
  (forall s x, P x -> frames n (f s x) (fun _ => True)) -> Forall P l ->
  forall s, frames n (foldM f l s) (fun _ => True).
Proof.
  intros Hf. induction 1 as [|x l Hx Hl IH]; simpl; intros s.
  - now apply frames_ret.
  - eapply frames_bind; [apply Hf, Hx|]. intros s' _. apply IH.
Qed.

Lemma sort_insert_Forall {A} (cmp : A -> A -> Z) (P : A -> Prop) (x : A) (l : list A) :
  P x -> Forall P l -> Forall P (sort_insert cmp x l).
Proof.
  intros Hx. induction 1 as [|y l Hy Hl IH]; simpl.
  - repeat constructor. assumption.
  - destruct (cmp x y <? 0)%Z; repeat constructor; assumption.
Qed.

Lemma sort_Forall {A} (cmp : A -> A -> Z) (P : A -> Prop) (l : list A) :
  Forall P l -> Forall P (sort cmp l).
Proof.
  unfold sort. intros Hl.
  assert (H : forall acc, Forall P acc ->
            Forall P (fold_left (fun acc x => sort_insert cmp x acc) l acc)).
  { induction Hl as [|x l Hx Hl IH]; simpl; intros acc Hacc; [assumption|].
    apply IH. now apply sort_insert_Forall. }
  apply H. constructor.
Qed.

Lemma frames_sortH (items : list loc) (P : loc -> Prop) :
  Forall P items -> frames n (sortH items) (Forall P).
Proof.
  intros Hi h Hn. unfold sortH. simpl. repeat split; [assumption|].
  intros a H. injection H as <-. now apply sort_Forall.
Qed.

Lemma frames_linkPreviousH (items : list loc) :
  Forall (fresh n) items ->
  forall previous, frames n (linkPreviousH previous items) (fun _ => True).
Proof.
  induction 1 as [|x l Hx Hl IH]; simpl; intros previous.
  - now apply frames_ret.
  - eapply frames_bind.
    + destruct (truthyVal previous); [now apply frames_storeProp | now apply frames_ret].
    + intros _ _. eapply frames_bind; [apply frames_load|]. intros c _. apply IH.
Qed.

Lemma Forall_concat {A} (P : A -> Prop) (ls : list (list A)) :
  Forall (Forall P) ls -> Forall P (concat ls).
Proof.
  induction 1 as [|l ls Hl Hls IH]; simpl; [constructor|].
  apply Forall_app. split; assumption.
Qed.

(** The items of [processHistories] are objects of its own. *)
Lemma frames_processHistoriesH (issue : IssueRef) :
  frames n (processHistoriesH issue) (Forall (fresh n)).
Proof.
  unfold processHistoriesH.
  eapply frames_bind.
  { apply (frames_mapM _ (fun _ => True) (fun _ => True)).
    - intros history _. eapply frames_bind; [apply frames_load|]. intros c _.
      eapply frames_bind.
      + apply (frames_filterM _ (fun _ => True)).
        * intros x. eapply frames_bind; [apply frames_load|]. intros f _.
          now apply frames_ret.
        * apply Forall_forall. auto.
      + intros items _. now apply frames_ret.
    - apply Forall_forall. auto. }
  intros entries _.
  eapply frames_bind.
  { apply (frames_mapM _ (fun _ => True) (Forall (fresh n))).
    - intros entry _. apply (frames_mapM _ (fun _ => True) (fresh n)).
      + intros item _. unfold computedItemH.
        eapply frames_bind; [apply frames_load|]. intros from _.
        eapply frames_bind; [apply frames_load|]. intros to _.
        apply frames_alloc.
      + apply Forall_forall. auto.
    - apply Forall_forall. auto. }
  intros nested Hnested.
  eapply frames_bind; [apply frames_sortH, Forall_concat, Hnested|].
  intros sortedItems Hsorted.
  eapply frames_bind; [now apply frames_linkPreviousH|].
  intros _ _. now apply frames_ret.
Qed.

End Frame.

Section FrameOfParser.
Context {cal : BusinessCalendar} (n : nat).

Lemma frames_countEpisodeH (issue : IssueRef)
    (st : StagePassedDays * option Moment) (item : loc) :
  fresh n item -> frames n (countEpisodeH issue st item) (fun _ => True).
Proof.
  intros Hitem. unfold countEpisodeH.
  eapply frames_bind; [apply frames_load|]. intros p _.
  apply (frames_bind n _ _ (fun _ => True)).
  { destruct (negb (truthyVal p)); [|now apply frames_ret].
    eapply frames_bind; [apply frames_load|]. intros c _.
    now apply frames_storeProp. }
  intros _ _.
  eapply frames_bind; [apply frames_load|]. intros p' _.
  eapply frames_bind; [apply frames_load|]. intros e _.
  eapply frames_bind; [apply frames_valSplitT0|]. intros s1 _.
  eapply frames_bind; [apply frames_valSplitT0|]. intros s2 _.
  now apply frames_ret.
Qed.

Lemma frames_processActiveStatusesH (issue : IssueRef)
    (stages activeStatuses : list string) (sortedItems : list loc)
    (table : gmap string StagePassedDays) :
  Forall (fresh n) sortedItems ->
  frames n (processActiveStatusesH issue stages activeStatuses sortedItems table)
    (fun _ => True).
Proof.
  intros Hitems. unfold processActiveStatusesH.
  apply (frames_foldM n _ (fun _ => True)); [|apply Forall_forall; auto].
  intros st stage _. unfold activeStageH.
  eapply frames_bind.
  { apply (frames_filterM n _ (fresh n)); [|exact Hitems].
    intros x. eapply frames_bind; [apply frames_load|]. intros f _.
    now apply frames_ret. }
  intros selected Hsel.
  eapply frames_bind.
  { apply (frames_foldM n _ (fresh n)); [|exact Hsel].
    intros s x Hx. now apply frames_countEpisodeH. }
  intros r _. now apply frames_ret.
Qed.

Lemma frames_processInactiveStatesH (stages activeStatuses : list string)
    (sortedItems : list loc) (dates : gmap string Moment) :
  frames n (processInactiveStatesH stages activeStatuses sortedItems dates)
    (fun _ => True).
Proof.
  unfold processInactiveStatesH.
  apply (frames_foldM n _ (fun _ => True)); [|apply Forall_forall; auto].
  intros st stage _. unfold inactiveStageH.
  eapply frames_bind.
  { apply (frames_findM n _ (fun _ => True)); [|apply Forall_forall; auto].
    intros x. eapply frames_bind; [apply frames_load|]. intros t _.
    now apply frames_ret. }
  intros [item|] _; [|now apply frames_ret].
  eapply frames_bind; [apply frames_load|]. intros c _.
  eapply frames_bind; [apply frames_valSplitT0|]. intros s _.
  now apply frames_ret.
Qed.

Lemma frames_getStagingDatesH (issue : IssueRef) (workflow : Workflow)
    (activeStatuses : list string) :
  frames n (getStagingDatesH issue workflow activeStatuses) (fun _ => True).
Proof.
  unfold getStagingDatesH.
  eapply frames_bind; [apply frames_processHistoriesH|]. intros sortedItems Hitems.
  eapply frames_bind; [now apply frames_processActiveStatusesH|]. intros active _.
  eapply frames_bind; [apply frames_processInactiveStatesH|]. intros inactive _.
  intros h Hn. simpl. repeat split; auto.
Qed.

End FrameOfParser.

(** C9: a call of [getStagingDates] leaves every object it was given as it
    was: the issue's [fields], its history entries and their field changes
    are the cells of the store before the call, and they are the first cells
    of the store after it, unchanged.  The writes of [previousCreated] go to
    the items the parser has built itself. *)
Theorem getStagingDates_keeps_issue {cal : BusinessCalendar} (issue : IssueRef)
    (workflow : Workflow) (activeStatuses : list string) (h : Store) :
  take (length h) (fst (getStagingDatesH issue workflow activeStatuses h)) = h.
Proof.
  destruct (frames_getStagingDatesH (length h) issue workflow activeStatuses h
              (Nat.le_refl _)) as (Hlen & Hkeep & _).
  apply list_eq. intros x.
  destruct (Nat.lt_ge_cases x (length h)) as [Hx|Hx].
  - rewrite lookup_take_lt by assumption. now apply Hkeep.
  - rewrite lookup_take_ge by assumption. symmetry. now apply lookup_ge_None_2.
Qed.

(** ** The two readings of the parser agree *)

Lemma runs_ret {A} (a : A) (h : Store) : runs (ret a) h h a.
Proof. reflexivity. Qed.

Lemma runs_bind {A B} (m : M A) (k : A -> M B) (h h1 h2 : Store) (a : A) (b : B) :
  runs m h h1 a -> runs (k a) h1 h2 b -> runs (bindM m k) h h2 b.
Proof. unfold runs, bindM. intros -> H. exact H. Qed.

Lemma runs_load (h : Store) (x : loc) (k : string) (o : JSObject) :
  h !! x = Some o -> runs (load x k) h h (prop o k).
Proof. unfold runs, load. intros ->. reflexivity. Qed.

Lemma runs_storeProp (h : Store) (x : loc) (k : string) (v : jsval) (o : JSObject) :
  h !! x = Some o -> runs (storeProp x k v) h (<[x := <[k := v]> o]> h) tt.
Proof. unfold runs, storeProp. intros ->. reflexivity. Qed.

Lemma valEq_valOf (v : jsval) (s : option string) (stage : string) :
  valOf v s -> valEq v stage = strictEq s stage.
Proof. destruct v, s; simpl; try tauto. intros ->. reflexivity. Qed.

Lemma truthyVal_valOf (v : jsval) (s : option string) :
  valOf v s -> truthyVal v = truthy s.
Proof. destruct v, s; simpl; try tauto. intros ->. reflexivity. Qed.

(** Cells stay where they are when the store grows. *)
Lemma baseItemAt_app (h ext : Store) (x : loc) (b : JiraApiBaseItem) :
  baseItemAt h x b -> baseItemAt (h ++ ext) x b.
Proof.
  intros (o & Ho & H). exists o. split; [|assumption].
  rewrite lookup_app_l; [assumption|]. eapply lookup_lt_Some. eassumption.
Qed.

Lemma computedAt_app (h ext : Store) (xc : loc * JiraComputedItem) :
  computedAt h xc -> computedAt (h ++ ext) xc.
Proof.
  intros (o & Ho & H). exists o. split; [|assumption].
  rewrite lookup_app_l; [assumption|]. eapply lookup_lt_Some. eassumption.
Qed.

Lemma createdAt_app (h ext : Store) (x : loc) (c : string) :
  createdAt h x c -> createdAt (h ++ ext) x c.
Proof.
  intros (o & Ho & H). exists o. split; [|assumption].
  rewrite lookup_app_l; [assumption|]. eapply lookup_lt_Some. eassumption.
Qed.

(** Reading the status changes of a history entry. *)
Lemma statusItemsH_runs (h : Store) (items : list loc) (pitems : list JiraApiBaseItem) :
  Forall2 (baseItemAt h) items pitems ->
  exists k,
    runs (filterM (fun historyItem =>
                     f <~ load historyItem "field" ;; ret (valEq f "status")) items)
      h h k /\
    Forall2 (baseItemAt h) k
      (List.filter (fun historyItem => String.eqb (item_field historyItem) "status")
         pitems).
Proof.
  induction 1 as [|x b l l' Hxb Hl IH]; simpl.
  - exists []. split; [apply runs_ret | constructor].
  - destruct IH as (k & Hk & Hf).
    destruct Hxb as (o & Ho & Hfield & Hfrom & Hto).
    exists (if String.eqb (item_field b) "status" then x :: k else k). split.
    + eapply runs_bind.
      { eapply runs_bind; [apply runs_load, Ho | apply runs_ret]. }
      eapply runs_bind; [apply Hk|].
      rewrite Hfield. simpl. apply runs_ret.
    + destruct (String.eqb (item_field b) "status"); [|assumption].
      constructor; [|assumption]. exists o. auto.
Qed.

Lemma entries_runs (h : Store) (hs : list HistoryRef) (phs : list JiraApiHistory) :
  Forall2 (historyAt h) hs phs ->
  exists entries,
    runs (mapM (fun history =>
                  c <~ load (history_ref history) "created" ;;
                  items <~ statusItemsH history ;;
                  ret (c, items)) hs) h h entries /\
    Forall2 (entryAt h) entries
      (map (fun history => (history_created history, statusItems history)) phs).
Proof.
  induction 1 as [|r p l l' Hrp Hl IH]; simpl.
  - exists []. split; [apply runs_ret | constructor].
  - destruct IH as (entries & Hrun & Hent).
    destruct Hrp as ((o & Ho & Hc) & Hitems).
    destruct (statusItemsH_runs h _ _ Hitems) as (k & Hk & Hf).
    exists ((Str (history_created p), k) :: entries). split.
    + eapply runs_bind.
      { eapply runs_bind; [apply runs_load, Ho|].
        eapply runs_bind; [apply Hk|]. rewrite Hc. apply runs_ret. }
      eapply runs_bind; [apply Hrun | apply runs_ret].
    + constructor; [|assumption]. split; [reflexivity | exact Hf].
Qed.

Lemma entries_filter (h : Store) (entries : list (jsval * list loc))
    (pentries : list (string * list JiraApiBaseItem)) :
  Forall2 (entryAt h) entries pentries ->
  Forall2 (entryAt h)
    (List.filter (fun entry => (0 <? length (snd entry))%nat) entries)
    (List.filter (fun entry => (0 <? length (snd entry))%nat) pentries).
Proof.
  induction 1 as [|e pe l l' Hpe Hl IH]; simpl; [constructor|].
  destruct Hpe as (Hc & Hitems).
  rewrite (Forall2_length _ _ _ Hitems).
  destruct (0 <? length (snd pe))%nat; [|assumption].
  constructor; [split|]; assumption.
Qed.

Lemma computedAt_literal (h : Store) (ext : Store) (from to : jsval) (c : string)
    (b : JiraApiBaseItem) :
  valOf from (item_fromString b) -> valOf to (item_toString b) ->
  computedAt
    ((h ++ [<["fromString" := from]> (<["toString" := to]> (<["created" := Str c]> ∅))])
       ++ ext)
    (length h, computedItem c b).
Proof.
  intros Hfrom Hto. eexists. split.
  - simpl. rewrite lookup_app_l by (rewrite length_app; simpl; lia).
    rewrite lookup_app_r by lia. rewrite Nat.sub_diag. reflexivity.
  - unfold prop. simpl. repeat split.
    + rewrite lookup_insert_eq. assumption.
    + rewrite lookup_insert_ne by discriminate. rewrite lookup_insert_eq. assumption.
Qed.

(** The object literals of one history entry: one new cell each, in order. *)
Lemma computedItems_runs (h0 : Store) (c : string) (l : list loc)
    (l' : list JiraApiBaseItem) :
  Forall2 (baseItemAt h0) l l' ->
  forall ext, exists ext' lp,
    runs (mapM (computedItemH (Str c)) l) (h0 ++ ext) (h0 ++ ext ++ ext') (map fst lp) /\
    map snd lp = map (computedItem c) l' /\
    map fst lp = seq (length (h0 ++ ext)) (length lp) /\
    length ext' = length lp /\
    Forall (computedAt (h0 ++ ext ++ ext')) lp.
Proof.
  induction 1 as [|x b l l' Hxb Hl IH]; intros ext.
  - exists [], []. simpl. rewrite app_nil_r.
    repeat split; constructor.
  - destruct (baseItemAt_app h0 ext x b Hxb) as (o & Ho & _ & Hfrom & Hto).
    set (obj := <["fromString" := prop o "fromString"]>
                  (<["toString" := prop o "toString"]>
                     (<["created" := Str c]> (∅ : gmap string jsval)))).
    destruct (IH (ext ++ [obj])) as (ext' & lp & Hrun & Hsnd & Hfst & Hlen & Hall).
    exists (obj :: ext'), ((length (h0 ++ ext), computedItem c b) :: lp).
    assert (Hshape : h0 ++ ext ++ obj :: ext' = h0 ++ (ext ++ [obj]) ++ ext').
    { rewrite <- (app_assoc ext). reflexivity. }
    rewrite Hshape. repeat split.
    + simpl. eapply runs_bind.
      { unfold computedItemH.
        eapply runs_bind; [apply runs_load, Ho|].
        eapply runs_bind; [apply runs_load, Ho|].
        unfold runs, alloc. reflexivity. }
      eapply runs_bind; [|apply runs_ret].
      fold obj. rewrite <- (app_assoc h0). exact Hrun.
    + simpl. f_equal. assumption.
    + simpl. f_equal. rewrite Hfst. f_equal.
      rewrite !length_app. simpl. lia.
    + simpl. f_equal. assumption.
    + constructor; [|assumption].
      rewrite (app_assoc h0), (app_assoc h0 ext).
      apply computedAt_literal; assumption.
Qed.

Lemma entries_alloc_runs (h0 : Store) (entries : list (jsval * list loc))
    (pentries : list (string * list JiraApiBaseItem)) :
  Forall2 (entryAt h0) entries pentries ->
  forall ext, exists ext' nested lp,
    runs (mapM (fun entry => mapM (computedItemH (fst entry)) (snd entry)) entries)
      (h0 ++ ext) (h0 ++ ext ++ ext') nested /\
    concat nested = map fst lp /\
    map snd lp =
      concat (map (fun entry => map (computedItem (fst entry)) (snd entry)) pentries) /\
    map fst lp = seq (length (h0 ++ ext)) (length lp) /\
    length ext' = length lp /\
    Forall (computedAt (h0 ++ ext ++ ext')) lp.
Proof.
  induction 1 as [|e pe l l' Hpe Hl IH]; intros ext.
  - exists [], [], []. simpl. rewrite app_nil_r.
    repeat split; constructor.
  - destruct Hpe as (Hc & Hitems).
    destruct (computedItems_runs h0 (fst pe) _ _ Hitems ext)
      as (ext1 & lp1 & Hrun1 & Hsnd1 & Hfst1 & Hlen1 & Hall1).
    destruct (IH (ext ++ ext1))
      as (ext2 & nested & lp2 & Hrun2 & Hcat & Hsnd2 & Hfst2 & Hlen2 & Hall2).
    exists (ext1 ++ ext2), (map fst lp1 :: nested), (lp1 ++ lp2).
    assert (Hshape : h0 ++ ext ++ ext1 ++ ext2 = h0 ++ (ext ++ ext1) ++ ext2).
    { rewrite <- (app_assoc ext). reflexivity. }
    rewrite Hshape. repeat split.
    + simpl. eapply runs_bind; [rewrite Hc; exact Hrun1|].
      eapply runs_bind; [|apply runs_ret].
      exact Hrun2.
    + simpl. rewrite Hcat, map_app. reflexivity.
    + simpl. rewrite map_app, Hsnd1, Hsnd2. reflexivity.
    + rewrite map_app, Hfst1, Hfst2. rewrite (length_app lp1), seq_app.
      f_equal. f_equal. rewrite !length_app. lia.
    + rewrite !length_app. lia.
    + apply Forall_app. split; [|assumption].
      eapply Forall_impl; [exact Hall1|]. intros xc Hxc.
      rewrite (app_assoc h0 (ext ++ ext1) ext2). apply computedAt_app. exact Hxc.
Qed.

(** Sorting rearranges. *)
Lemma sort_insert_Permutation {A} (cmp : A -> A -> Z) (x : A) (l : list A) :
  Permutation (sort_insert cmp x l) (x :: l).
Proof.
  induction l as [|y l IH]; simpl; [reflexivity|].
  destruct (cmp x y <? 0)%Z; [reflexivity|].
  rewrite IH. apply perm_swap.
Qed.

Lemma sort_fold_Permutation {A} (cmp : A -> A -> Z) (l : list A) :
  forall acc,
    Permutation (fold_left (fun acc x => sort_insert cmp x acc) l acc) (l ++ acc).
Proof.
  induction l as [|x l IH]; intros acc; simpl; [reflexivity|].
  rewrite IH, sort_insert_Permutation. symmetry. apply Permutation_middle.
Qed.

Lemma sort_Permutation {A} (cmp : A -> A -> Z) (l : list A) :
  Permutation (sort cmp l) l.
Proof.
  unfold sort. rewrite sort_fold_Permutation. now rewrite app_nil_r.
Qed.

(** Sorting references by what they point to is sorting what they point
    to. *)
Lemma sort_insert_map {A B} (f : A -> B) (cmp : B -> B -> Z) (cmp' : A -> A -> Z)
    (x : A) (l : list A) :
  (forall y, In y l -> cmp (f x) (f y) = cmp' x y) ->
  sort_insert cmp (f x) (map f l) = map f (sort_insert cmp' x l).
Proof.
  induction l as [|y l IH]; intros H; simpl; [reflexivity|].
  rewrite (H y (or_introl eq_refl)).
  destruct (cmp' x y <? 0)%Z; [reflexivity|].
  simpl. f_equal. apply IH. intros z Hz. apply H. now right.
Qed.

Lemma sort_map {A B} (f : A -> B) (cmp : B -> B -> Z) (cmp' : A -> A -> Z)
    (l : list A) :
  (forall a b, In a l -> In b l -> cmp (f a) (f b) = cmp' a b) ->
  sort cmp (map f l) = map f (sort cmp' l).
Proof.
  unfold sort. intros H.
  assert (Hgen : forall l0 acc,
            (forall a, In a (l0 ++ acc) -> In a l) ->
            fold_left (fun acc x => sort_insert cmp x acc) (map f l0) (map f acc) =
            map f (fold_left (fun acc x => sort_insert cmp' x acc) l0 acc)).
  { induction l0 as [|x l0 IH]; intros acc Hin; simpl; [reflexivity|].
    rewrite (sort_insert_map f cmp cmp').
    - apply IH. intros a Ha. apply Hin. apply in_app_or in Ha.
      destruct Ha as [Ha|Ha].
      + right. apply in_or_app. now left.
      + apply (Permutation_in _ (sort_insert_Permutation cmp' x acc)) in Ha.
        destruct Ha as [<-|Ha]; [now left|]. right. apply in_or_app. now right.
    - intros y Hy. apply H; apply Hin; [now left|].
      right. apply in_or_app. now right. }
  apply (Hgen l []). intros a Ha. now rewrite app_nil_r in Ha.
Qed.

Lemma propAt_created (h : Store) (xc : loc * JiraComputedItem) :
  computedAt h xc -> propAt h (fst xc) "created" = Str (created (snd xc)).
Proof.
  intros (o & Ho & _ & _ & Hc & _). unfold propAt. rewrite Ho. exact Hc.
Qed.

Lemma sortH_runs (h : Store) (lp : list (loc * JiraComputedItem)) :
  Forall (computedAt h) lp ->
  runs (sortH (map fst lp)) h h (map fst (sort comparePairs lp)) /\
  sort comparefn (map snd lp) = map snd (sort comparePairs lp).
Proof.
  intros Hall. split.
  - unfold runs, sortH. f_equal. f_equal. apply sort_map.
    intros a b Ha Hb. rewrite List.Forall_forall in Hall.
    unfold comparefnH, comparePairs, comparefn.
    rewrite (propAt_created h a), (propAt_created h b) by auto. reflexivity.
  - apply sort_map. reflexivity.
Qed.

Lemma computedAt_same_cell (h h' : Store) (xc : loc * JiraComputedItem) :
  h' !! fst xc = h !! fst xc -> computedAt h xc -> computedAt h' xc.
Proof. intros He (o & Ho & H). exists o. split; [congruence | assumption]. Qed.

Lemma createdAt_same_cell (h h' : Store) (x : loc) (c : string) :
  h' !! x = h !! x -> createdAt h x c -> createdAt h' x c.
Proof. intros He (o & Ho & H). exists o. split; [congruence | assumption]. Qed.

(** Writing [previousCreated] into the cell of an item. *)
Lemma computedAt_store (h : Store) (x : loc) (c : JiraComputedItem) (o : JSObject)
    (p : string) :
  h !! x = Some o -> computedAt h (x, c) ->
  computedAt (<[x := <["previousCreated" := Str p]> o]> h) (x, setPreviousCreated c p).
Proof.
  intros Ho (o' & Ho' & Hfrom & Hto & Hc & _). simpl in *.
  assert (o' = o) by congruence. subst o'.
  eexists. split.
  - simpl. apply list_lookup_insert_eq. eapply lookup_lt_Some. eassumption.
  - unfold prop in *. simpl.
    rewrite !lookup_insert_ne by discriminate. rewrite lookup_insert_eq.
    repeat split; assumption.
Qed.

Lemma linkPreviousH_runs (lp : list (loc * JiraComputedItem)) :
  forall (h : Store) (prev : jsval) (pv : option string),
    NoDup (map fst lp) -> Forall (computedAt h) lp -> valOf prev pv ->
    exists h',
      runs (linkPreviousH prev (map fst lp)) h h' tt /\
      length h' = length h /\
      (forall x, ~ In x (map fst lp) -> h' !! x = h !! x) /\
      Forall (computedAt h') (combine (map fst lp) (linkPrevious pv (map snd lp))).
Proof.
  induction lp as [|[x c] lp IH]; intros h prev pv Hnd Hall Hv.
  - exists h. repeat split; constructor.
  - simpl in *. inversion Hnd as [|? ? Hx Hnd']; subst.
    rewrite list_elem_of_In in Hx.
    inversion Hall as [|? ? Hxc Hall']; subst.
    destruct Hxc as (o & Ho & Hxc). simpl in Ho.
    set (c' := match pv with
               | Some p => if truthy pv then setPreviousCreated c p else c
               | None => c
               end).
    assert (Hstep : exists h1,
              runs (if truthyVal prev then storeProp x "previousCreated" prev
                    else ret tt) h h1 tt /\
              length h1 = length h /\
              (forall y, y <> x -> h1 !! y = h !! y) /\
              computedAt h1 (x, c')).
    { rewrite (truthyVal_valOf _ _ Hv). subst c'.
      destruct pv as [p|]; [|exists h; repeat split; [exists o; auto]].
      destruct prev; simpl in Hv; try contradiction. subst s.
      destruct (truthy (Some p)).
      - eexists. split; [apply runs_storeProp, Ho|].
        split; [apply length_insert|]. split.
        + intros y Hy. apply list_lookup_insert_ne. congruence.
        + apply computedAt_store; [assumption|]. exists o. auto.
      - exists h. repeat split. exists o. auto. }
    destruct Hstep as (h1 & Hrun1 & Hlen1 & Hkeep1 & Hc1).
    assert (Hall1 : Forall (computedAt h1) lp).
    { rewrite List.Forall_forall in Hall'. apply List.Forall_forall. intros yc Hyc.
      apply (computedAt_same_cell h); [|auto].
      apply Hkeep1. intros Heq. apply Hx. rewrite <- Heq. now apply in_map. }
    destruct Hc1 as (o1 & Ho1 & Hfrom1 & Hto1 & Hcr1 & Hprev1). simpl in Ho1.
    assert (Hcreated : created c' = created c).
    { subst c'. destruct pv; [destruct (truthy _)|]; reflexivity. }
    destruct (IH h1 (Str (created c)) (Some (created c)) Hnd' Hall1 eq_refl)
      as (h' & Hrun & Hlen & Hkeep & Hrest).
    exists h'. split; [|split; [|split]].
    + eapply runs_bind; [exact Hrun1|].
      eapply runs_bind; [apply runs_load, Ho1|].
      rewrite Hcr1. simpl. rewrite Hcreated. exact Hrun.
    + congruence.
    + intros y Hy. rewrite Hkeep by (intros H; apply Hy; now right).
      apply Hkeep1. intros ->. apply Hy. now left.
    + constructor; [|exact Hrest].
      apply (computedAt_same_cell h1); [apply Hkeep, Hx|].
      exists o1. repeat split; assumption.
Qed.

Lemma linkPrevious_length (items : list JiraComputedItem) :
  forall previous, length (linkPrevious previous items) = length items.
Proof.
  induction items as [|item rest IH]; intros previous; simpl; [reflexivity|].
  now rewrite IH.
Qed.

Lemma map_fst_combine {A B} (l : list A) :
  forall k : list B, length l = length k -> map fst (combine l k) = l.
Proof.
  induction l as [|x l IH]; intros [|y k] H; simpl in *; try discriminate;
    [reflexivity|]. f_equal. apply IH. congruence.
Qed.

Lemma map_snd_combine {A B} (l : list A) :
  forall k : list B, length l = length k -> map snd (combine l k) = k.
Proof.
  induction l as [|x l IH]; intros [|y k] H; simpl in *; try discriminate;
    [reflexivity|]. f_equal. apply IH. congruence.
Qed.

(** [processHistories] on the store: it builds the items of the value
    reading in cells of its own, and leaves the others as they are. *)
Lemma processHistoriesH_runs (h : Store) (ir : IssueRef) (issue : JiraApiIssue) :
  issueAt h ir issue ->
  exists h' lp,
    runs (processHistoriesH ir) h h' (map fst lp) /\
    map snd lp = processHistories issue /\
    NoDup (map fst lp) /\
    Forall (fun x => (length h <= x)%nat) (map fst lp) /\
    Forall (computedAt h') lp /\
    (forall x, (x < length h)%nat -> h' !! x = h !! x).
Proof.
  intros [Hfields Hhist].
  destruct (entries_runs h _ _ Hhist) as (entries & Hrun1 & Hent).
  apply entries_filter in Hent.
  destruct (entries_alloc_runs h _ _ Hent [])
    as (ext & nested & lp0 & Hrun2 & Hcat & Hsnd0 & Hfst0 & Hlen0 & Hall0).
  rewrite app_nil_r in *. simpl in *.
  destruct (sortH_runs (h ++ ext) lp0 Hall0) as (Hrun3 & Hsort).
  set (lp1 := sort comparePairs lp0) in *.
  assert (Hperm : Permutation lp1 lp0) by apply sort_Permutation.
  assert (Hnd1 : NoDup (map fst lp1)).
  { rewrite Hperm, Hfst0. apply NoDup_seq. }
  assert (Hall1 : Forall (computedAt (h ++ ext)) lp1) by now rewrite Hperm.
  assert (Hfresh1 : Forall (fun x => (length h <= x)%nat) (map fst lp1)).
  { rewrite Hperm, Hfst0. apply List.Forall_forall. intros x Hx.
    apply in_seq in Hx. lia. }
  destruct (linkPreviousH_runs lp1 (h ++ ext) Undefined None Hnd1 Hall1 I)
    as (h' & Hrun4 & Hlen4 & Hkeep4 & Hall4).
  assert (Hlen : length (map fst lp1) =
                 length (linkPrevious None (map snd lp1))).
  { now rewrite linkPrevious_length, !length_map. }
  exists h', (combine (map fst lp1) (linkPrevious None (map snd lp1))).
  rewrite map_fst_combine, map_snd_combine by assumption.
  repeat split; try assumption.
  - unfold processHistoriesH.
    eapply runs_bind; [exact Hrun1|].
    eapply runs_bind; [exact Hrun2|].
    eapply runs_bind; [rewrite Hcat; exact Hrun3|].
    eapply runs_bind; [exact Hrun4 | apply runs_ret].
  - unfold processHistories, flattenedItems. rewrite <- Hsnd0, Hsort. reflexivity.
  - intros x Hx. rewrite Hkeep4.
    + apply lookup_app_l. assumption.
    + intros Hin. rewrite List.Forall_forall in Hfresh1.
      specialize (Hfresh1 x Hin). lia.
Qed.

Section Refinement.
Context {cal : BusinessCalendar}.

Lemma filter_map_snd {A B} (p : B -> bool) (l : list (A * B)) :
  List.filter p (map snd l) = map snd (List.filter (fun xc => p (snd xc)) l).
Proof.
  induction l as [|xc l IH]; simpl; [reflexivity|].
  destruct (p (snd xc)); simpl; now rewrite IH.
Qed.

Lemma selectFrom_runs (h : Store) (stage : string) (lp : list (loc * JiraComputedItem)) :
  Forall (computedAt h) lp ->
  runs (filterM (fun item => f <~ load item "fromString" ;; ret (valEq f stage))
          (map fst lp))
    h h
    (map fst (List.filter (fun xc => strictEq (fromString (snd xc)) stage) lp)).
Proof.
  induction 1 as [|xc lp Hxc Hl IH]; simpl; [apply runs_ret|].
  destruct Hxc as (o & Ho & Hfrom & _).
  eapply runs_bind.
  { eapply runs_bind; [apply runs_load, Ho | apply runs_ret]. }
  eapply runs_bind; [exact IH|].
  rewrite (valEq_valOf _ _ stage Hfrom).
  destruct (strictEq (fromString (snd xc)) stage); apply runs_ret.
Qed.

(** One episode on the store. *)
Lemma countEpisodeH_runs (issue : JiraApiIssue) (ir : IssueRef) (h : Store)
    (x : loc) (c : JiraComputedItem) (st : StagePassedDays * option Moment) :
  createdAt h (fields_ref ir) (fields_created issue) ->
  fields_ref ir <> x ->
  computedAt h (x, c) ->
  exists h',
    runs (countEpisodeH ir st x) h h' (countEpisode issue st c) /\
    length h' = length h /\
    (forall y, y <> x -> h' !! y = h !! y) /\
    computedAt h' (x, touch issue c).
Proof.
  intros (o0 & Hof & Hfc) Hne Hxc.
  pose proof Hxc as (o & Ho & Hfrom & Hto & Hcr & Hprev). simpl in *.
  assert (Hstep : exists h1 o1,
            runs (if negb (truthyVal (prop o "previousCreated"))
                  then c0 <~ load (fields_ref ir) "created" ;;
                       storeProp x "previousCreated" c0
                  else ret tt) h h1 tt /\
            length h1 = length h /\
            (forall y, y <> x -> h1 !! y = h !! y) /\
            computedAt h1 (x, touch issue c) /\
            h1 !! x = Some o1 /\
            prop o1 "previousCreated" = Str (episodeStart issue c) /\
            prop o1 "created" = Str (created c)).
  { rewrite (truthyVal_valOf _ _ Hprev). unfold touch, episodeStart.
    destruct (truthy (previousCreated c)) eqn:Et; simpl.
    - exists h, o. repeat split; try assumption.
      destruct (previousCreated c) as [p|]; [|discriminate].
      destruct (prop o "previousCreated"); simpl in Hprev; try contradiction.
      now subst.
    - eexists. eexists. split.
      { eapply runs_bind; [apply runs_load, Hof|].
        rewrite Hfc. apply runs_storeProp, Ho. }
      split; [apply length_insert|]. split.
      { intros y Hy. apply list_lookup_insert_ne. congruence. }
      split; [now apply computedAt_store|]. split.
      { apply list_lookup_insert_eq. eapply lookup_lt_Some. eassumption. }
      unfold prop in *. rewrite lookup_insert_eq.
      rewrite lookup_insert_ne by discriminate. split; [reflexivity | assumption]. }
  destruct Hstep as (h1 & o1 & Hrun1 & Hlen1 & Hkeep1 & Hc1 & Ho1 & Hp1 & Hcr1).
  exists h1. repeat split; try assumption.
  unfold countEpisodeH.
  eapply runs_bind; [apply runs_load, Ho|].
  eapply runs_bind; [exact Hrun1|].
  eapply runs_bind; [apply runs_load, Ho1|].
  eapply runs_bind; [apply runs_load, Ho1|].
  rewrite Hp1, Hcr1. reflexivity.
Qed.

Lemma countEpisodes_runs (issue : JiraApiIssue) (ir : IssueRef)
    (k : list (loc * JiraComputedItem)) :
  forall (h : Store) (st : StagePassedDays * option Moment),
    createdAt h (fields_ref ir) (fields_created issue) ->
    ~ In (fields_ref ir) (map fst k) ->
    NoDup (map fst k) ->
    Forall (computedAt h) k ->
    exists h',
      runs (foldM (countEpisodeH ir) (map fst k) st) h h'
        (fold_left (countEpisode issue) (map snd k) st) /\
      length h' = length h /\
      (forall x, ~ In x (map fst k) -> h' !! x = h !! x) /\
      Forall (computedAt h') (map (fun xc => (fst xc, touch issue (snd xc))) k).
Proof.
  induction k as [|[x c] k IH]; intros h st Hf Hnf Hnd Hall.
  - exists h. repeat split; constructor.
  - simpl in *. inversion Hnd as [|? ? Hx Hnd']; subst.
    rewrite list_elem_of_In in Hx.
    inversion Hall as [|? ? Hxc Hall']; subst.
    destruct (countEpisodeH_runs issue ir h x c st Hf) as
      (h1 & Hrun1 & Hlen1 & Hkeep1 & Hc1);
      [intros Heq; apply Hnf; now left | assumption |].
    destruct (IH h1 (countEpisode issue st c)) as (h' & Hrun & Hlen & Hkeep & Hrest).
    + apply (createdAt_same_cell h); [|assumption]. apply Hkeep1.
      intros Heq. apply Hnf. now left.
    + intros H. apply Hnf. now right.
    + assumption.
    + rewrite List.Forall_forall in Hall'. apply List.Forall_forall. intros yc Hyc.
      apply (computedAt_same_cell h); [|auto].
      apply Hkeep1. intros Heq. apply Hx. rewrite <- Heq. now apply in_map.
    + exists h'. split; [|split; [|split]].
      * eapply runs_bind; [exact Hrun1 | exact Hrun].
      * congruence.
      * intros y Hy. rewrite Hkeep by (intros H; apply Hy; now right).
        apply Hkeep1. intros ->. apply Hy. now left.
      * constructor; [|exact Hrest].
        apply (computedAt_same_cell h1); [apply Hkeep, Hx | exact Hc1].
Qed.

Lemma NoDup_fst_inj {A B} (l : list (A * B)) (a b : A * B) :
  NoDup (map fst l) -> In a l -> In b l -> fst a = fst b -> a = b.
Proof.
  induction l as [|xc l IH]; simpl; intros Hnd Ha Hb He; [destruct Ha|].
  inversion Hnd as [|? ? Hx Hnd']; subst. rewrite list_elem_of_In in Hx.
  destruct Ha as [->|Ha], Hb as [->|Hb].
  - reflexivity.
  - exfalso. apply Hx. rewrite He. now apply in_map.
  - exfalso. apply Hx. rewrite <- He. now apply in_map.
  - now apply IH.
Qed.

Lemma NoDup_fst_filter {A B} (p : A * B -> bool) (l : list (A * B)) :
  NoDup (map fst l) -> NoDup (map fst (List.filter p l)).
Proof.
  induction l as [|xc l IH]; simpl; intros Hnd; [constructor|].
  inversion Hnd as [|? ? Hx Hnd']; subst. rewrite list_elem_of_In in Hx.
  destruct (p xc); simpl; [|auto].
  constructor; [|auto].
  rewrite list_elem_of_In. intros Hin. apply Hx.
  apply in_map_iff in Hin. destruct Hin as (yc & He & Hy).
  apply filter_In in Hy. rewrite <- He. apply in_map. tauto.
Qed.

(** One active stage on the store. *)
Lemma activeStageH_runs (issue : JiraApiIssue) (ir : IssueRef)
    (lp : list (loc * JiraComputedItem)) (h : Store)
    (table : gmap string StagePassedDays) (anchor : option Moment) (stage : string) :
  createdAt h (fields_ref ir) (fields_created issue) ->
  ~ In (fields_ref ir) (map fst lp) ->
  NoDup (map fst lp) ->
  Forall (computedAt h) lp ->
  let st' := activeStage issue
               {| as_passedDays := table; as_date := anchor; as_items := map snd lp |}
               stage in
  exists h' lp',
    runs (activeStageH ir (map fst lp) (table, anchor) stage) h h'
      (as_passedDays st', as_date st') /\
    map fst lp' = map fst lp /\
    map snd lp' = as_items st' /\
    Forall (computedAt h') lp' /\
    createdAt h' (fields_ref ir) (fields_created issue).
Proof.
  intros Hf Hnf Hnd Hall. simpl.
  set (p := fun xc : loc * JiraComputedItem => strictEq (fromString (snd xc)) stage).
  set (k := List.filter p lp).
  assert (Hsub : forall x, In x (map fst k) -> In x (map fst lp)).
  { intros x Hx. apply in_map_iff in Hx. destruct Hx as (yc & <- & Hy).
    apply filter_In in Hy. apply in_map. tauto. }
  destruct (countEpisodes_runs issue ir k h
              ({| didHappen := false; passedDays := 0 |}, anchor))
    as (h' & Hrun & Hlen & Hkeep & Hk); try assumption.
  - intros H. apply Hnf. auto.
  - now apply NoDup_fst_filter.
  - rewrite List.Forall_forall in Hall. apply List.Forall_forall.
    intros xc Hxc. apply Hall. apply filter_In in Hxc. tauto.
  - exists h', (map (fun xc => (fst xc, if p xc then touch issue (snd xc) else snd xc)) lp).
    rewrite !map_map. simpl. split; [|split; [|split; [|split]]].
    + unfold activeStageH.
      eapply runs_bind; [now apply selectFrom_runs|].
      fold p. fold k. rewrite filter_map_snd. fold p. fold k.
      eapply runs_bind; [exact Hrun | apply runs_ret].
    + reflexivity.
    + reflexivity.
    + apply List.Forall_forall. intros yc Hyc.
      apply in_map_iff in Hyc. destruct Hyc as (xc & <- & Hxc).
      destruct (p xc) eqn:Ep.
      * rewrite List.Forall_forall in Hk. apply Hk.
        apply (in_map (fun xc => (fst xc, touch issue (snd xc)))).
        apply filter_In. tauto.
      * apply (computedAt_same_cell h).
        -- simpl. apply Hkeep. intros Hin.
           apply in_map_iff in Hin. destruct Hin as (yc & He & Hy).
           apply filter_In in Hy. destruct Hy as [Hy Hp].
           rewrite (NoDup_fst_inj lp yc xc Hnd Hy Hxc He) in Hp. congruence.
        -- rewrite List.Forall_forall in Hall. destruct xc. now apply Hall.
    + apply (createdAt_same_cell h); [|assumption].
      apply Hkeep. intros H. apply Hnf. auto.
Qed.

Lemma activeStagesH_runs (issue : JiraApiIssue) (ir : IssueRef) (stages : list string) :
  forall (lp : list (loc * JiraComputedItem)) (h : Store)
         (table : gmap string StagePassedDays) (anchor : option Moment),
    createdAt h (fields_ref ir) (fields_created issue) ->
    ~ In (fields_ref ir) (map fst lp) ->
    NoDup (map fst lp) ->
    Forall (computedAt h) lp ->
    let st' := fold_left (activeStage issue) stages
                 {| as_passedDays := table; as_date := anchor;
                    as_items := map snd lp |} in
    exists h' lp',
      runs (foldM (activeStageH ir (map fst lp)) stages (table, anchor)) h h'
        (as_passedDays st', as_date st') /\
      map fst lp' = map fst lp /\
      map snd lp' = as_items st' /\
      Forall (computedAt h') lp'.
Proof.
  induction stages as [|stage stages IH]; intros lp h table anchor Hf Hnf Hnd Hall.
  - simpl. exists h, lp. repeat split. assumption.
  - simpl.
    destruct (activeStageH_runs issue ir lp h table anchor stage Hf Hnf Hnd Hall)
      as (h1 & lp1 & Hrun1 & Hfst1 & Hsnd1 & Hall1 & Hf1).
    set (st1 := activeStage issue
                  {| as_passedDays := table; as_date := anchor;
                     as_items := map snd lp |} stage) in *.
    destruct (IH lp1 h1 (as_passedDays st1) (as_date st1))
      as (h' & lp' & Hrun & Hfst & Hsnd & Hall'); try assumption.
    + now rewrite Hfst1.
    + now rewrite Hfst1.
    + rewrite Hfst1, Hsnd1 in *.
      exists h', lp'. split; [|split; [|split]]; try assumption.
      eapply runs_bind; [exact Hrun1 | exact Hrun].
Qed.

Lemma findInto_runs (h : Store) (stage : string) (lp : list (loc * JiraComputedItem)) :
  Forall (computedAt h) lp ->
  runs (findM (fun item => t <~ load item "toString" ;; ret (valEq t stage))
          (map fst lp))
    h h
    (option_map fst
       (List.find (fun xc => strictEq (toString (snd xc)) stage) lp)) /\
  List.find (fun item => strictEq (toString item) stage) (map snd lp) =
  option_map snd (List.find (fun xc => strictEq (toString (snd xc)) stage) lp).
Proof.
  induction 1 as [|xc lp Hxc Hl [IH1 IH2]]; simpl; [split; [apply runs_ret | reflexivity]|].
  destruct Hxc as (o & Ho & _ & Hto & _).
  split.
  - eapply runs_bind.
    { eapply runs_bind; [apply runs_load, Ho | apply runs_ret]. }
    rewrite (valEq_valOf _ _ stage Hto).
    destruct (strictEq (toString (snd xc)) stage); [apply runs_ret | exact IH1].
  - destruct (strictEq (toString (snd xc)) stage); [reflexivity | exact IH2].
Qed.

Lemma inactiveStagesH_runs (h : Store) (lp : list (loc * JiraComputedItem))
    (stages : list string) :
  Forall (computedAt h) lp ->
  forall dates,
    runs (foldM (inactiveStageH (map fst lp)) stages dates) h h
      (fold_left (inactiveStage (map snd lp)) stages dates).
Proof.
  intros Hall. induction stages as [|stage stages IH]; intros dates; simpl.
  - apply runs_ret.
  - destruct (findInto_runs h stage lp Hall) as [Hfind Hpure].
    eapply runs_bind; [|apply IH].
    unfold inactiveStageH, inactiveStage. rewrite Hpure.
    eapply runs_bind; [exact Hfind|].
    destruct (List.find _ lp) as [xc|] eqn:E; simpl; [|apply runs_ret].
    apply find_some in E. destruct E as [Hin _].
    rewrite List.Forall_forall in Hall.
    destruct (Hall xc Hin) as (o & Ho & _ & _ & Hcr & _).
    eapply runs_bind; [apply runs_load, Ho|]. rewrite Hcr.
    eapply runs_bind; [reflexivity | apply runs_ret].
Qed.

(** On a store that holds the issue, the parser on the store returns what
    the parser on the value returns. *)
Theorem getStagingDatesH_refines (h : Store) (ir : IssueRef) (issue : JiraApiIssue)
    (workflow : Workflow) (activeStatuses : list string) :
  issueAt h ir issue ->
  snd (getStagingDatesH ir workflow activeStatuses h) =
  getStagingDates issue workflow activeStatuses.
Proof.
  intros Hissue.
  destruct (processHistoriesH_runs h ir issue Hissue)
    as (h1 & lp & Hrun1 & Hsnd & Hnd & Hfresh & Hall & Hkeep).
  destruct Hissue as [Hfields _].
  assert (Hlt : (fields_ref ir < length h)%nat).
  { destruct Hfields as (o & Ho & _). eapply lookup_lt_Some. eassumption. }
  assert (Hf1 : createdAt h1 (fields_ref ir) (fields_created issue)).
  { apply (createdAt_same_cell h); [|assumption]. now apply Hkeep. }
  assert (Hnf : ~ In (fields_ref ir) (map fst lp)).
  { intros Hin. rewrite List.Forall_forall in Hfresh.
    specialize (Hfresh _ Hin). lia. }
  destruct (activeStagesH_runs issue ir
              (List.filter (fun stage => includes activeStatuses stage)
                 (Object_keys workflow))
              lp h1 ∅ None Hf1 Hnf Hnd Hall)
    as (h2 & lp2 & Hrun2 & Hfst2 & Hsnd2 & Hall2).
  pose proof (inactiveStagesH_runs h2 lp2
                (List.filter (fun stage => negb (includes activeStatuses stage))
                   (Object_keys workflow)) Hall2 ∅) as Hrun3.
  rewrite Hfst2 in Hrun3. rewrite Hsnd in *.
  unfold getStagingDatesH, bindM.
  rewrite Hrun1.
  unfold processActiveStatusesH. rewrite Hrun2.
  unfold processInactiveStatesH. rewrite Hrun3. simpl.
  unfold getStagingDates, processActiveStatuses, processInactiveStates.
  simpl. rewrite Hsnd2. reflexivity.
Qed.

End Refinement.

(** ** Order of the transitions *)

Lemma ltb_asym (a b : string) : String.ltb a b = true -> String.ltb b a = false.
Proof.
  unfold String.ltb. rewrite (String.compare_antisym a b).
  destruct (String.compare b a); simpl; congruence.
Qed.

Lemma sort_insert_Sorted (x : JiraComputedItem) (l : list JiraComputedItem) :
  Sorted notLater l -> Sorted notLater (sort_insert comparefn x l).
Proof.
  induction 1 as [|y l Hl IH Hy]; simpl.
  - repeat constructor.
  - unfold comparefn at 1.
    destruct (String.ltb (created x) (created y)) eqn:E; simpl.
    + constructor; [now constructor|]. constructor. now apply ltb_asym.
    + constructor; [assumption|].
      destruct l as [|z l]; simpl.
      * constructor. exact E.
      * unfold comparefn at 1.
        destruct (String.ltb (created x) (created z)); simpl.
        -- constructor. exact E.
        -- inversion Hy. now constructor.
Qed.

Lemma sort_Sorted (l : list JiraComputedItem) : Sorted notLater (sort comparefn l).
Proof.
  unfold sort.
  assert (H : forall acc, Sorted notLater acc ->
            Sorted notLater
              (fold_left (fun acc x => sort_insert comparefn x acc) l acc)).
  { induction l as [|x l IH]; simpl; intros acc Hacc; [assumption|].
    apply IH. now apply sort_insert_Sorted. }
  apply H. constructor.
Qed.

Lemma linkPrevious_created (items : list JiraComputedItem) :
  forall previous, map created (linkPrevious previous items) = map created items.
Proof.
  induction items as [|item rest IH]; intros previous; simpl; [reflexivity|].
  rewrite IH. f_equal. destruct previous; [destruct (truthy _)|]; reflexivity.
Qed.

Lemma Sorted_created (l l' : list JiraComputedItem) :
  map created l' = map created l -> Sorted notLater l -> Sorted notLater l'.
Proof.
  intros Hm Hs. revert l' Hm.
  induction Hs as [|a l Hl IH Ha]; intros [|a' l'] Hm; simpl in Hm;
    try discriminate; [constructor|].
  injection Hm as Ha' Hm. constructor; [now apply IH|].
  destruct l' as [|b' l']; [constructor|].
  destruct l as [|b l]; [discriminate|]. simpl in Hm. injection Hm as Hb' Hm.
  inversion Ha; subst. constructor. unfold notLater in *. congruence.
Qed.

(** The transitions come out of [processHistories] in time order: none is
    earlier than the one before it. *)
Lemma processHistories_Sorted (issue : JiraApiIssue) :
  Sorted notLater (processHistories issue).
Proof.
  unfold processHistories.
  eapply Sorted_created; [apply linkPrevious_created | apply sort_Sorted].
Qed.

(** ** The issue after the call *)

Lemma issueAt_app (h ext : Store) (ir : IssueRef) (issue : JiraApiIssue) :
  issueAt h ir issue -> issueAt (h ++ ext) ir issue.
Proof.
  intros [Hf Hh]. split; [now apply createdAt_app|].
  eapply Forall2_impl; [exact Hh|].
  intros r history [Hc Hitems]. split; [now apply createdAt_app|].
  eapply Forall2_impl; [exact Hitems|].
  intros x b. apply baseItemAt_app.
Qed.

(** A store that holds the issue before the call holds it after the call. *)
Lemma issue_held_after_call {cal : BusinessCalendar} (h : Store) (ir : IssueRef)
    (issue : JiraApiIssue) (workflow : Workflow) (activeStatuses : list string) :
  issueAt h ir issue ->
  issueAt (fst (getStagingDatesH ir workflow activeStatuses h)) ir issue.
Proof.
  intros H.
  rewrite <- (take_drop (length h) (fst (getStagingDatesH ir workflow activeStatuses h))).
  destruct (frames_getStagingDatesH (length h) ir workflow activeStatuses h
              (Nat.le_refl _)) as (_ & Hkeep & _).
  assert (Htake : take (length h) (fst (getStagingDatesH ir workflow activeStatuses h))
                  = h).
  { apply list_eq. intros x.
    destruct (Nat.lt_ge_cases x (length h)) as [Hx|Hx].
    - rewrite lookup_take_lt by assumption. now apply Hkeep.
    - rewrite lookup_take_ge by assumption. symmetry. now apply lookup_ge_None_2. }
  rewrite Htake. now apply issueAt_app.
Qed.

(** In scenario A the call adds two cells to the five of the issue, one per
    transition, and writes [previousCreated] into the second. *)
Example scenarioA_store_after :
  let h' := fst (getStagingDatesH (cal := MonFri.calendar) scenarioA_ref threeStages
                   ["In Progress"] scenarioA_store) in
  length h' = 7%nat /\
  take 5 h' = scenarioA_store /\
  propAt h' 6 "previousCreated" = Str "2024-01-02T09:00:00.000+0000" /\
  issueAt scenarioA_store scenarioA_ref scenarioA_timed.
Proof.
  repeat split; try (vm_compute; reflexivity).
  - eexists. split; [reflexivity | reflexivity].
  - repeat constructor; eexists; (split; [reflexivity|]); repeat split.
Qed.

(** * Further properties *)

(** ** The transitions of [processHistories] *)

Lemma linkPrevious_transitions (items : list JiraComputedItem) :
  forall previous,
    map transitionOf (linkPrevious previous items) = map transitionOf items.
Proof.
  induction items as [|item rest IH]; intros previous; simpl; [reflexivity|].
  rewrite IH. f_equal. destruct previous; [destruct (truthy _)|]; reflexivity.
Qed.

Lemma flattenedItems_transitions (issue : JiraApiIssue) :
  map transitionOf (flattenedItems issue) = statusChanges issue.
Proof.
  unfold flattenedItems, statusChanges.
  induction (changelog_histories issue) as [|history hs IH]; [reflexivity|].
  simpl. destruct (statusItems history) as [|item items] eqn:E; simpl.
  - exact IH.
  - rewrite map_app, IH. f_equal. simpl. f_equal.
    rewrite map_map. reflexivity.
Qed.

(** X2: [processHistories] keeps every status change of the changelog, once,
    with the time of its history entry, and nothing else: its transitions
    are a rearrangement of the status changes. *)
Theorem processHistories_keeps_status_changes (issue : JiraApiIssue) :
  Permutation (map transitionOf (processHistories issue)) (statusChanges issue) /\
  length (processHistories issue) = length (statusChanges issue).
Proof.
  assert (H : Permutation (map transitionOf (processHistories issue))
                (statusChanges issue)).
  { unfold processHistories.
    rewrite linkPrevious_transitions, <- flattenedItems_transitions.
    apply Permutation_map, sort_Permutation. }
  split; [exact H|].
  rewrite <- (Permutation_length H). now rewrite length_map.
Qed.

Lemma linkPrevious_links (items : list JiraComputedItem) :
  forall previous,
    Forall (fun item => previousCreated item = None) items ->
    (forall a, linkPrevious previous items !! 0%nat = Some a ->
       previousCreated a = if truthy previous then previous else None) /\
    (forall i a b,
       linkPrevious previous items !! i = Some a ->
       linkPrevious previous items !! S i = Some b ->
       previousCreated b =
       if truthy (Some (created a)) then Some (created a) else None).
Proof.
  induction items as [|item rest IH]; intros previous Hall; simpl.
  - split; intros; discriminate.
  - inversion Hall as [|? ? Hnone Hrest]; subst.
    destruct (IH (Some (created item)) Hrest) as [IH0 IHS].
    assert (Hc : forall item',
              item' = match previous with
                      | Some p => if truthy previous then setPreviousCreated item p
                                  else item
                      | None => item
                      end -> created item' = created item).
    { intros item' ->.
      destruct previous as [p|]; [destruct (truthy (Some p))|]; reflexivity. }
    split.
    + intros a H. injection H as <-.
      destruct previous as [p|]; [|exact Hnone].
      destruct (truthy (Some p)); [reflexivity | exact Hnone].
    + intros [|i] a b Ha Hb; simpl in *.
      * injection Ha as <-. rewrite (Hc _ eq_refl). now apply IH0.
      * eapply IHS; eassumption.
Qed.

Lemma flattenedItems_unlinked (issue : JiraApiIssue) :
  Forall (fun item => previousCreated item = None) (flattenedItems issue).
Proof.
  unfold flattenedItems. apply Forall_concat.
  apply List.Forall_forall. intros l Hl. apply in_map_iff in Hl.
  destruct Hl as (entry & <- & _).
  apply List.Forall_forall. intros item Hi. apply in_map_iff in Hi.
  destruct Hi as (b & <- & _). reflexivity.
Qed.

(** X3: in the result of [processHistories] the first transition has no
    [previousCreated], and every other one has the time of the transition
    just before it (unless that time is the empty string, which the code
    takes for no time). *)
Theorem previousCreated_is_time_before (issue : JiraApiIssue) :
  (forall a, processHistories issue !! 0%nat = Some a -> previousCreated a = None) /\
  (forall i a b,
     processHistories issue !! i = Some a ->
     processHistories issue !! S i = Some b ->
     previousCreated b =
     if String.eqb (created a) "" then None else Some (created a)).
Proof.
  destruct (linkPrevious_links (sort comparefn (flattenedItems issue)) None
              (sort_Forall _ _ _ (flattenedItems_unlinked issue))) as [H0 HS].
  split; [exact H0|].
  intros i a b Ha Hb. rewrite (HS i a b Ha Hb). simpl.
  destruct (String.eqb (created a) ""); reflexivity.
Qed.

(** ** The tables of [processActiveStatuses] *)

Lemma touch_leaves (issue : JiraApiIssue) (stage : string) (item : JiraComputedItem) :
  leaves stage (touch issue item) = leaves stage item.
Proof. unfold touch. destruct (truthy (previousCreated item)); reflexivity. Qed.

Lemma touch_episodeStart (issue : JiraApiIssue) (item : JiraComputedItem) :
  episodeStart issue (touch issue item) = episodeStart issue item.
Proof.
  unfold touch, episodeStart.
  destruct (truthy (previousCreated item)) eqn:E; [now rewrite E|].
  simpl. destruct (negb _); reflexivity.
Qed.

Lemma touch_created (issue : JiraApiIssue) (item : JiraComputedItem) :
  created (touch issue item) = created item.
Proof. unfold touch. destruct (truthy (previousCreated item)); reflexivity. Qed.

Lemma touch_touch (issue : JiraApiIssue) (item : JiraComputedItem) :
  touch issue (touch issue item) = touch issue item.
Proof.
  unfold touch, truthy. destruct item as [f t c [p|]]; simpl.
  - destruct (String.eqb p "") eqn:E; simpl; rewrite ?E; simpl;
      [destruct (String.eqb (fields_created issue) "")|]; reflexivity.
  - destruct (String.eqb (fields_created issue) ""); reflexivity.
Qed.

Lemma visited_leaves (issue : JiraApiIssue) (stages : list string) (stage : string)
    (item : JiraComputedItem) :
  leaves stage (visited issue stages item) = leaves stage item.
Proof. unfold visited. destruct (existsb _ _); [apply touch_leaves | reflexivity]. Qed.

Lemma visited_episodeStart (issue : JiraApiIssue) (stages : list string)
    (item : JiraComputedItem) :
  episodeStart issue (visited issue stages item) = episodeStart issue item.
Proof.
  unfold visited. destruct (existsb _ _); [apply touch_episodeStart | reflexivity].
Qed.

Lemma visited_created (issue : JiraApiIssue) (stages : list string)
    (item : JiraComputedItem) :
  created (visited issue stages item) = created item.
Proof. unfold visited. destruct (existsb _ _); [apply touch_created | reflexivity]. Qed.

Lemma visited_snoc (issue : JiraApiIssue) (stages : list string) (stage : string)
    (item : JiraComputedItem) :
  (if leaves stage (visited issue stages item)
   then touch issue (visited issue stages item)
   else visited issue stages item) =
  visited issue (stages ++ [stage]) item.
Proof.
  rewrite visited_leaves. unfold visited. rewrite existsb_app. simpl.
  rewrite orb_false_r.
  destruct (existsb _ stages), (leaves stage item); simpl;
    try reflexivity. apply touch_touch.
Qed.

Lemma filter_visited (issue : JiraApiIssue) (stages : list string) (stage : string)
    (items : list JiraComputedItem) :
  List.filter (leaves stage) (map (visited issue stages) items) =
  map (visited issue stages) (List.filter (leaves stage) items).
Proof.
  induction items as [|item items IH]; simpl; [reflexivity|].
  rewrite visited_leaves. destruct (leaves stage item); simpl; now rewrite IH.
Qed.

Section ActiveTables.
Context {cal : BusinessCalendar}.

Lemma episodeDays_visited (issue : JiraApiIssue) (stages : list string)
    (item : JiraComputedItem) :
  episodeDays issue (visited issue stages item) = episodeDays issue item.
Proof.
  unfold episodeDays. now rewrite visited_episodeStart, visited_created.
Qed.

(** The accumulator of [reduce] after the episodes [selected]. *)
Lemma countEpisode_record (issue : JiraApiIssue) (selected : list JiraComputedItem) :
  forall acc d,
    fst (fold_left (countEpisode issue) selected (acc, d)) =
    {| didHappen := didHappen acc || negb (Nat.eqb (length selected) 0);
       passedDays := passedDays acc + sumZ (map (episodeDays issue) selected) |}.
Proof.
  induction selected as [|item rest IH]; intros acc d; simpl.
  - rewrite orb_false_r, Z.add_0_r. now destruct acc.
  - unfold countEpisode at 2. rewrite IH. simpl. rewrite orb_true_r. f_equal.
    unfold episodeDays. lia.
Qed.

(** The variable [activeStatusDate] after the episodes [selected]. *)
Lemma countEpisode_date (issue : JiraApiIssue) (selected : list JiraComputedItem) :
  forall acc d,
    snd (fold_left (countEpisode issue) selected (acc, d)) =
    match d with
    | Some _ => d
    | None =>
        match selected with
        | [] => None
        | item :: _ => Some (moment (splitT0 (episodeStart issue item)))
        end
    end.
Proof.
  induction selected as [|item rest IH]; intros acc d; simpl.
  - now destruct d.
  - unfold countEpisode at 2. rewrite IH. simpl. now destruct d.
Qed.

Lemma length_filter_existsb {A} (p : A -> bool) (l : list A) :
  negb (Nat.eqb (length (List.filter p l)) 0) = existsb p l.
Proof.
  induction l as [|x l IH]; simpl; [reflexivity|].
  destruct (p x); simpl; [reflexivity | exact IH].
Qed.

Lemma recordOf_visited (issue : JiraApiIssue) (stages : list string) (stage : string)
    (items : list JiraComputedItem) :
  fst (fold_left (countEpisode issue)
         (List.filter (leaves stage) (map (visited issue stages) items))
         ({| didHappen := false; passedDays := 0 |}, None)) =
  recordOf issue stage items.
Proof.
  rewrite countEpisode_record. unfold recordOf. simpl.
  rewrite length_filter_existsb, filter_visited, map_map.
  f_equal.
  - induction items as [|item items IH]; simpl; [reflexivity|].
    now rewrite visited_leaves, IH.
  - rewrite Z.add_0_l. f_equal. apply map_ext. intros item.
    apply episodeDays_visited.
Qed.

Lemma head_filter_find {A} (p : A -> bool) (l : list A) :
  match List.filter p l with [] => None | x :: _ => Some x end = List.find p l.
Proof.
  induction l as [|x l IH]; simpl; [reflexivity|]. destruct (p x); [reflexivity | exact IH].
Qed.

Lemma find_visited (issue : JiraApiIssue) (stages : list string) (stage : string)
    (items : list JiraComputedItem) :
  List.find (leaves stage) (map (visited issue stages) items) =
  option_map (visited issue stages) (List.find (leaves stage) items).
Proof.
  induction items as [|item items IH]; simpl; [reflexivity|].
  rewrite visited_leaves. destruct (leaves stage item); [reflexivity | exact IH].
Qed.

Lemma find_snoc {A} (p : A -> bool) (l : list A) (x : A) :
  List.find p (l ++ [x]) =
  match List.find p l with
  | Some y => Some y
  | None => if p x then Some x else None
  end.
Proof.
  induction l as [|y l IH]; simpl; [reflexivity|]. destruct (p y); [reflexivity | exact IH].
Qed.

Lemma existsb_find {A} (p : A -> bool) (l : list A) :
  existsb p l = isSet (List.find p l).
Proof.
  induction l as [|x l IH]; simpl; [reflexivity|]. destruct (p x); [reflexivity | exact IH].
Qed.

(** What [processActiveStatuses] leaves behind after the stages [stages],
    started on the items [items] with an empty date: the items its callback
    has visited, the record of every stage, and the date. *)
Lemma activeStages_fold (issue : JiraApiIssue) (items : list JiraComputedItem)
    (table : gmap string StagePassedDays) (stages : list string) :
  let final := fold_left (activeStage issue) stages
                 {| as_passedDays := table; as_date := None; as_items := items |} in
  as_items final = map (visited issue stages) items /\
  as_date final = firstEpisodeStart issue items stages /\
  forall stage,
    as_passedDays final !! stage =
    if includes stages stage then Some (recordOf issue stage items)
    else table !! stage.
Proof.
  induction stages as [|stage stages IH] using rev_ind; simpl.
  - repeat split.
    unfold visited. simpl. induction items; simpl; congruence.
  - rewrite fold_left_app. simpl.
    destruct IH as (Hitems & Hdate & Htable).
    set (prev := fold_left (activeStage issue) stages _) in *.
    unfold activeStage. simpl. rewrite Hitems.
    split; [|split].
    + rewrite map_map. apply map_ext. intros item. apply visited_snoc.
    + rewrite Hdate. fold (leaves stage).
      unfold firstEpisodeStart. rewrite find_snoc.
      destruct (List.find (fun s => existsb (leaves s) items) stages) as [s|] eqn:Es.
      * rewrite countEpisode_date.
        apply find_some in Es. destruct Es as [_ Es].
        rewrite existsb_find in Es.
        destruct (List.find (leaves s) items); [reflexivity | discriminate].
      * rewrite countEpisode_date, filter_visited.
        pose proof (head_filter_find (leaves stage) items) as Hh.
        rewrite existsb_find.
        destruct (List.filter (leaves stage) items) as [|item sel];
          simpl; rewrite <- Hh; simpl; [reflexivity|].
        rewrite <- Hh. simpl. now rewrite visited_episodeStart.
    + intros s. fold (leaves stage).
      assert (Hinc : includes (stages ++ [stage]) s =
                     includes stages s || String.eqb s stage).
      { unfold includes. rewrite existsb_app. simpl. now rewrite orb_false_r. }
      rewrite Hinc.
      assert (Hrec : fst (fold_left (countEpisode issue)
                            (List.filter (leaves stage) (map (visited issue stages) items))
                            ({| didHappen := false; passedDays := 0 |}, as_date prev))
                     = recordOf issue stage items).
      { rewrite <- recordOf_visited with (stages := stages).
        rewrite !countEpisode_record. reflexivity. }
      rewrite Hrec.
      destruct (String.eqb s stage) eqn:E.
      * apply String.eqb_eq in E. subst s.
        rewrite orb_true_r. apply lookup_insert_eq.
      * rewrite orb_false_r.
        rewrite lookup_insert_ne; [apply Htable|].
        intros ->. rewrite String.eqb_refl in E. discriminate.
Qed.

End ActiveTables.

Lemma includes_filter (p : string -> bool) (xs : list string) (x : string) :
  includes (List.filter p xs) x = includes xs x && p x.
Proof.
  apply eq_true_iff_eq. rewrite andb_true_iff, !includes_In, filter_In. tauto.
Qed.

Section Tables.
Context {cal : BusinessCalendar}.

Lemma activeTable_fold (issue : JiraApiIssue) (workflow : Workflow)
    (activeStatuses : list string) :
  let final := activeTable issue workflow activeStatuses in
  let items := processHistories issue in
  as_items final = map (visited issue (activeStages workflow activeStatuses)) items /\
  as_date final = firstEpisodeStart issue items (activeStages workflow activeStatuses) /\
  forall stage,
    as_passedDays final !! stage =
    if includes (Object_keys workflow) stage && includes activeStatuses stage
    then Some (recordOf issue stage items)
    else None.
Proof.
  destruct (activeStages_fold issue (processHistories issue) ∅
              (activeStages workflow activeStatuses)) as (Hitems & Hdate & Htable).
  repeat split; [exact Hitems | exact Hdate |].
  intros stage. unfold activeTable, processActiveStatuses.
  fold (activeStages workflow activeStatuses).
  rewrite Htable. unfold activeStages. rewrite includes_filter, lookup_empty.
  reflexivity.
Qed.

(** X4: the duration record of [processActiveStatuses].  A stage has a
    record exactly when it is a stage of the workflow listed in
    [activeStatuses]; the record says whether some transition leaves the
    stage, and sums the business days of the episodes such transitions
    close, each from the time of the transition before it (the creation of
    the issue if there is none) to its own time. *)
Theorem duration_record (issue : JiraApiIssue) (workflow : Workflow)
    (activeStatuses : list string) (stage : string) :
  as_passedDays (activeTable issue workflow activeStatuses) !! stage =
  if includes (Object_keys workflow) stage && includes activeStatuses stage
  then Some
         {| didHappen := existsb (leaves stage) (processHistories issue);
            passedDays :=
              sumZ (map (fun item =>
                           businessDiff (moment (splitT0 (created item)))
                             (moment (splitT0 (episodeStart issue item))))
                      (List.filter (leaves stage) (processHistories issue))) |}
  else None.
Proof.
  destruct (activeTable_fold issue workflow activeStatuses) as (_ & _ & H).
  apply H.
Qed.

(** X5: the date [processActiveStatuses] returns is the start of the first
    episode of the first active stage, in workflow order, that some
    transition leaves; it is unset when no transition leaves an active
    stage. *)
Theorem anchor_is_first_episode_start (issue : JiraApiIssue) (workflow : Workflow)
    (activeStatuses : list string) :
  as_date (activeTable issue workflow activeStatuses) =
  match List.find (fun stage => existsb (leaves stage) (processHistories issue))
          (activeStages workflow activeStatuses) with
  | Some stage =>
      option_map (fun item => moment (splitT0 (episodeStart issue item)))
        (List.find (leaves stage) (processHistories issue))
  | None => None
  end.
Proof.
  destruct (activeTable_fold issue workflow activeStatuses) as (_ & H & _).
  exact H.
Qed.

(** X6: the only write of [processActiveStatuses] to the transitions is the
    one of the creation time of the issue into [previousCreated], for the
    transitions that leave an active stage of the workflow and have no
    [previousCreated]; every other field and every other transition is as
    [processHistories] built it. *)
Theorem processActiveStatuses_writes (issue : JiraApiIssue) (workflow : Workflow)
    (activeStatuses : list string) :
  as_items (activeTable issue workflow activeStatuses) =
  map (fun item =>
         if existsb (fun stage => leaves stage item)
              (activeStages workflow activeStatuses)
            && negb (truthy (previousCreated item))
         then setPreviousCreated item (fields_created issue)
         else item)
    (processHistories issue).
Proof.
  destruct (activeTable_fold issue workflow activeStatuses) as (H & _ & _).
  rewrite H. apply map_ext. intros item. unfold visited, touch.
  destruct (existsb _ _), (truthy (previousCreated item)); reflexivity.
Qed.

(** X7: the table of [processInactiveStates].  A stage has a date exactly
    when it is a stage of the workflow that is not listed in
    [activeStatuses] and some transition enters it; the date is the day of
    the first such transition. *)
Theorem inactive_date_recorded (issue : JiraApiIssue) (workflow : Workflow)
    (activeStatuses : list string) (stage : string) :
  inactiveTable issue workflow activeStatuses !! stage =
  if includes (Object_keys workflow) stage && negb (includes activeStatuses stage)
  then option_map (fun item => moment (splitT0 (created item)))
         (List.find (fun item => strictEq (toString item) stage)
            (processHistories issue))
  else None.
Proof. apply inactiveTable_lookup. Qed.

(** X8: the backward simulation is chosen exactly when [Done], spelled so,
    is a stage of the workflow, is not listed in [activeStatuses], and some
    transition enters it. *)
Theorem backward_simulation_chosen (issue : JiraApiIssue) (workflow : Workflow)
    (activeStatuses : list string) :
  reachedDone issue workflow activeStatuses =
  includes (Object_keys workflow) "Done" && negb (includes activeStatuses "Done")
  && existsb (fun item => strictEq (toString item) "Done") (processHistories issue).
Proof.
  unfold reachedDone. rewrite inactiveTable_lookup, existsb_find.
  destruct (_ && _); [|reflexivity].
  now destruct (List.find _ _).
Qed.


End Tables.

(** ** The forward simulation *)

Lemma mapWith_app {A B S} (f : S -> A -> result (B * S)) (l1 l2 : list A) (s : S) :
  mapWith f (l1 ++ l2) s =
  (r1 <- mapWith f l1 s ;;
   r2 <- mapWith f l2 (snd r1) ;;
   Ok (fst r1 ++ fst r2, snd r2)).
Proof.
  revert s. induction l1 as [|x l1 IH]; intros s; simpl.
  - destruct (mapWith f l2 s) as [[ys s']|e]; reflexivity.
  - destruct (f s x) as [[y s1]|e]; simpl; [|reflexivity].
    rewrite IH. destruct (mapWith f l1 s1) as [[ys s2]|e]; simpl; [|reflexivity].
    destruct (mapWith f l2 s2) as [[zs s3]|e]; reflexivity.
Qed.

Section Forward.
Context {cal : BusinessCalendar}.



Lemma notDone_cursor (activeStatuses : list string)
    (active : gmap string StagePassedDays) (inactive : gmap string Moment)
    (stages : list string) :
  forall d rs,
    mapWith (notDoneStep activeStatuses active inactive) stages (Some d) = Ok rs ->
    snd rs = Some (forwardCursor activeStatuses active stages d).
Proof.
  induction stages as [|stage stages IH]; intros d rs H; simpl in *.
  - injection H as <-. reflexivity.
  - destruct (notDoneStep activeStatuses active inactive (Some d) stage)
      as [[y c]|e] eqn:Es; simpl in H; [|discriminate].
    assert (Hc : c = Some (match forwardDays activeStatuses active stage with
                           | Some n => businessAdd d n
                           | None => d
                           end)).
    { unfold notDoneStep in Es. unfold forwardDays.
      destruct (includes activeStatuses stage); simpl in *.
      - destruct (isDone stage); simpl in *.
        + destruct (negb (isSet (inactive !! stage))); now injection Es as _ <-.
        + destruct (active !! stage) as [r|]; [|discriminate].
          destruct (didHappen r); simpl in *; now injection Es as _ <-.
      - destruct (isDone stage); simpl in *; [|now injection Es as _ <-].
        destruct (negb (isSet (inactive !! stage))); now injection Es as _ <-. }
    subst c.
    destruct (mapWith _ stages _) as [rs'|e] eqn:Er; simpl in H; [|discriminate].
    injection H as <-. simpl. eapply IH. eassumption.
Qed.

(** A stage at which the forward simulation emits its cursor gets the date
    the simulation started from, moved by the days of the stages before
    it. *)
Lemma notDone_emits_cursor (stages activeStatuses : list string)
    (active : gmap string StagePassedDays) (inactive : gmap string Moment)
    (anchor : Moment) (dates : list string) (i : nat) (stage : string) :
  mapNotDoneIssue stages activeStatuses active inactive (Some anchor) = Ok dates ->
  stages !! i = Some stage ->
  is_Some (forwardDays activeStatuses active stage) \/
    formatsCursor inactive stage = true ->
  dates !! i =
  Some (format (forwardCursor activeStatuses active (take i stages) anchor)).
Proof.
  intros Hmap Hi Hemit. unfold mapNotDoneIssue in Hmap.
  rewrite <- (take_drop_middle stages i stage Hi), mapWith_app in Hmap.
  destruct (mapWith _ (take i stages) _) as [r1|e] eqn:E1; simpl in Hmap;
    [|discriminate].
  pose proof (notDone_cursor _ _ _ _ _ _ E1) as Hc.
  pose proof (mapWith_length _ _ _ _ E1) as Hlen.
  destruct (notDoneStep activeStatuses active inactive (snd r1) stage)
    as [[y c]|e] eqn:Es; simpl in Hmap; [|discriminate].
  destruct (mapWith _ (drop (S i) stages) _) as [r2|e]; simpl in Hmap;
    [|discriminate].
  injection Hmap as <-. simpl.
  rewrite lookup_app_r by (rewrite Hlen, length_take; lia).
  assert (Hi' : (i < length stages)%nat) by (eapply lookup_lt_Some; eassumption).
  rewrite Hlen, length_take, Nat.min_l, Nat.sub_diag by lia. simpl. f_equal.
  rewrite Hc in Es. unfold notDoneStep in Es.
  unfold forwardDays, formatsCursor in Hemit.
  destruct (includes activeStatuses stage); simpl in *.
  - destruct (isDone stage); simpl in *.
    + destruct Hemit as [[n Hn]|He]; [discriminate|]. rewrite He in Es. simpl in Es.
      now injection Es as <- _.
    + destruct Hemit as [[n Hn]|He]; [|discriminate].
      destruct (active !! stage) as [r|]; [|discriminate].
      destruct (didHappen r); [|discriminate]. simpl in Es. now injection Es as <- _.
  - destruct Hemit as [[n Hn]|He]; [discriminate|].
    destruct (isDone stage); [|discriminate]. simpl in *. rewrite He in Es.
    simpl in Es. now injection Es as <- _.
Qed.

(** X10: the dates of the forward simulation.  A stage at which it emits its
    cursor (an active stage that happened, or a stage spelled like [done]
    with a recorded date) gets the date the simulation started from, moved
    forward by the business days of the stages before it, in workflow
    order, that happened. *)
Theorem forward_date_is_moved_anchor (stages activeStatuses : list string)
    (active : gmap string StagePassedDays) (inactive : gmap string Moment)
    (anchor : Moment) (dates : list string) (i : nat) (stage : string) :
  mapNotDoneIssue stages activeStatuses active inactive (Some anchor) = Ok dates ->
  stages !! i = Some stage ->
  is_Some (forwardDays activeStatuses active stage) \/
    formatsCursor inactive stage = true ->
  dates !! i =
  Some (format (forwardCursor activeStatuses active (take i stages) anchor)).
Proof. apply notDone_emits_cursor. Qed.


End Forward.

(** ** Stages that were never left, and inputs that do not matter *)

Lemma filter_filter {A} (p : A -> bool) (l : list A) :
  List.filter p (List.filter p l) = List.filter p l.
Proof.
  induction l as [|x l IH]; simpl; [reflexivity|].
  destruct (p x) eqn:E; simpl; rewrite ?E, IH; reflexivity.
Qed.

Lemma flattenedItems_statusOnly (issue : JiraApiIssue) :
  flattenedItems (statusOnly issue) = flattenedItems issue.
Proof.
  unfold flattenedItems, statusOnly. simpl. rewrite map_map. simpl.
  do 3 f_equal. apply map_ext. intros history.
  unfold statusItems. simpl. now rewrite filter_filter.
Qed.

Section Irrelevant.
Context {cal : BusinessCalendar}.

(** A status whose record says it did not happen gets no simulated date. *)
Lemma doneLoop_skips (active : gmap string StagePassedDays) (stage : string)
    (r : StagePassedDays) (l : list string) :
  active !! stage = Some r -> didHappen r = false ->
  forall st st', forEach (doneStep active) l st = Ok st' ->
    snd st' !! stage = snd st !! stage.
Proof.
  intros Hr Hd. induction l as [|x l IH]; simpl; intros st st' H.
  - injection H as <-. reflexivity.
  - destruct (doneStep active st x) as [s1|e] eqn:E; simpl in H; [|discriminate].
    rewrite (IH _ _ H).
    destruct (decide (stage = x)) as [<-|Hne].
    + unfold doneStep in E. rewrite Hr, Hd in E. simpl in E. now injection E as <-.
    + eapply doneStep_keeps; eassumption.
Qed.

(** X12: an active stage that no transition leaves has the empty string at
    its position, in both simulations, whatever transitions enter it. *)
Theorem stage_never_left_is_empty (issue : JiraApiIssue) (workflow : Workflow)
    (activeStatuses dates : list string) (i : nat) (stage : string) :
  getStagingDates issue workflow activeStatuses = Ok dates ->
  Object_keys workflow !! i = Some stage ->
  includes activeStatuses stage = true ->
  existsb (leaves stage) (processHistories issue) = false ->
  dates !! i = Some "".
Proof.
  intros Hget Hi Hact Hleft.
  assert (Hstage : includes (Object_keys workflow) stage = true).
  { apply includes_In. apply list_elem_of_In. eapply list_elem_of_lookup_2. eassumption. }
  destruct (activeTable_fold issue workflow activeStatuses) as (_ & _ & Htable).
  specialize (Htable stage). rewrite Hstage, Hact in Htable. simpl in Htable.
  assert (Hin : inactiveTable issue workflow activeStatuses !! stage = None).
  { rewrite inactiveTable_lookup, Hact, andb_false_r. reflexivity. }
  pose proof (getStagingDates_shape _ _ _ _ Hget) as Hshape. simpl in Hshape.
  destruct (reachedDone issue workflow activeStatuses).
  - destruct Hshape as (st & Hloop & ->).
    rewrite list_lookup_fmap, Hi. simpl. f_equal. unfold doneDate. rewrite Hact.
    rewrite (doneLoop_skips _ stage _ _ Htable Hleft _ _ Hloop).
    unfold doneInit. simpl. now rewrite lookup_empty.
  - destruct (Forall2_lookup_l _ _ _ _ _ Hshape Hi) as (date & Hdi & c & c' & Hstep).
    rewrite Hdi. f_equal. unfold notDoneStep in Hstep.
    rewrite Hact, Hin, Htable in Hstep. simpl in Hstep. unfold recordOf in Hstep.
    simpl in Hstep. rewrite Hleft in Hstep. simpl in Hstep.
    destruct (isDone stage); simpl in Hstep; now injection Hstep as <- _.
Qed.

Lemma activeTable_ext (issue : JiraApiIssue) (workflow : Workflow)
    (activeStatuses activeStatuses' : list string) :
  (forall s, In s (Object_keys workflow) ->
     includes activeStatuses s = includes activeStatuses' s) ->
  activeTable issue workflow activeStatuses = activeTable issue workflow activeStatuses'.
Proof.
  intros H. unfold activeTable, processActiveStatuses. f_equal.
  apply List.filter_ext_in. exact H.
Qed.

Lemma inactiveTable_ext (issue : JiraApiIssue) (workflow : Workflow)
    (activeStatuses activeStatuses' : list string) :
  (forall s, In s (Object_keys workflow) ->
     includes activeStatuses s = includes activeStatuses' s) ->
  inactiveTable issue workflow activeStatuses =
  inactiveTable issue workflow activeStatuses'.
Proof.
  intros H. unfold inactiveTable, processInactiveStates.
  rewrite (activeTable_ext _ _ _ _ H). f_equal.
  apply List.filter_ext_in. intros s Hs. now rewrite (H s Hs).
Qed.

(** X13: the forward simulation looks at [activeStatuses] only to ask
    whether a stage of the workflow is listed: two arrays that list the same
    stages of the workflow give the same result, whatever their order,
    their repetitions and their other entries. *)
Theorem forward_result_by_membership (issue : JiraApiIssue) (workflow : Workflow)
    (activeStatuses activeStatuses' : list string) :
  (forall s, In s (Object_keys workflow) ->
     includes activeStatuses s = includes activeStatuses' s) ->
  reachedDone issue workflow activeStatuses = false ->
  getStagingDates issue workflow activeStatuses =
  getStagingDates issue workflow activeStatuses'.
Proof.
  intros H Hnd. rewrite !getStagingDates_eq. simpl.
  unfold reachedDone in *.
  rewrite <- (inactiveTable_ext _ _ _ _ H), <- (activeTable_ext _ _ _ _ H), Hnd.
  unfold mapNotDoneIssue. f_equal.
  apply mapWith_ext_in. intros stage Hs c.
  unfold notDoneStep. now rewrite (H stage Hs).
Qed.

(** X14: the field changes that are no status changes do not matter: the
    result is the one for the issue without them. *)
Theorem other_field_changes_ignored (issue : JiraApiIssue) (workflow : Workflow)
    (activeStatuses : list string) :
  processHistories (statusOnly issue) = processHistories issue /\
  getStagingDates (statusOnly issue) workflow activeStatuses =
  getStagingDates issue workflow activeStatuses.
Proof.
  assert (H : processHistories (statusOnly issue) = processHistories issue).
  { unfold processHistories. now rewrite flattenedItems_statusOnly. }
  split; [exact H|].
  unfold getStagingDates. rewrite H. reflexivity.
Qed.

End Irrelevant.

Lemma find_app_none {A} (p : A -> bool) (l1 l2 : list A) :
  List.find p l1 = None -> List.find p (l1 ++ l2) = List.find p l2.
Proof.
  induction l1 as [|x l1 IH]; simpl; [reflexivity|].
  destruct (p x); [discriminate | exact IH].
Qed.

Lemma find_filter_none {A} (p q : A -> bool) (l : list A) :
  (forall x, In x l -> q x = true -> p x = false) ->
  List.find p (List.filter q l) = None.
Proof.
  induction l as [|x l IH]; intros H; simpl; [reflexivity|].
  destruct (q x) eqn:Eq; simpl.
  - rewrite (H x (or_introl eq_refl) Eq). apply IH. intros y Hy. apply H. now right.
  - apply IH. intros y Hy. apply H. now right.
Qed.

Section FirstStage.
Context {cal : BusinessCalendar}.

(** X15: an inactive stage that no transition enters has the empty string
    at its position, in both simulations. *)
Theorem stage_never_entered_is_empty (issue : JiraApiIssue) (workflow : Workflow)
    (activeStatuses dates : list string) (i : nat) (stage : string) :
  getStagingDates issue workflow activeStatuses = Ok dates ->
  Object_keys workflow !! i = Some stage ->
  includes activeStatuses stage = false ->
  List.find (fun item => strictEq (toString item) stage) (processHistories issue)
    = None ->
  dates !! i = Some "".
Proof.
  intros Hget Hi Hinact Hfind.
  assert (Hdate : inactiveTable issue workflow activeStatuses !! stage = None).
  { rewrite inactiveTable_lookup, Hfind. now destruct (_ && _). }
  pose proof (getStagingDates_shape _ _ _ _ Hget) as Hshape. simpl in Hshape.
  destruct (reachedDone issue workflow activeStatuses).
  - destruct Hshape as (st & _ & ->).
    rewrite list_lookup_fmap, Hi. simpl. unfold doneDate.
    now rewrite Hinact, Hdate.
  - destruct (Forall2_lookup_l _ _ _ _ _ Hshape Hi) as (date & Hdi & c & c' & Hstep).
    rewrite Hdi. unfold notDoneStep in Hstep.
    rewrite Hinact, Hdate in Hstep. simpl in Hstep.
    destruct (isDone stage); simpl in Hstep; now injection Hstep as <- _.
Qed.

(** X16: in the forward simulation, the first active stage of the workflow
    that some transition leaves is dated at the start of its first episode:
    the day of the transition before the first one that leaves it, or the
    day the issue was created if there is none. *)
Theorem first_left_stage_starts_at_first_episode (issue : JiraApiIssue)
    (workflow : Workflow) (activeStatuses dates pre post : list string)
    (stage : string) (item : JiraComputedItem) :
  getStagingDates issue workflow activeStatuses = Ok dates ->
  reachedDone issue workflow activeStatuses = false ->
  Object_keys workflow = pre ++ stage :: post ->
  (forall t, In t pre -> includes activeStatuses t = true ->
     existsb (leaves t) (processHistories issue) = false) ->
  includes activeStatuses stage = true ->
  isDone stage = false ->
  List.find (leaves stage) (processHistories issue) = Some item ->
  dates !! length pre = Some (format (moment (splitT0 (episodeStart issue item)))).
Proof.
  intros Hget Hnd Hstages Hpre Hact Hdone Hfind.
  destruct (activeTable_fold issue workflow activeStatuses) as (_ & Hdate & Htable).
  assert (Hleft : existsb (leaves stage) (processHistories issue) = true).
  { rewrite existsb_find, Hfind. reflexivity. }
  assert (Hanchor : as_date (activeTable issue workflow activeStatuses) =
                    Some (moment (splitT0 (episodeStart issue item)))).
  { rewrite Hdate. unfold firstEpisodeStart, activeStages.
    rewrite Hstages, List.filter_app, find_app_none
      by (apply find_filter_none; intros t Ht Hq; now apply Hpre).
    simpl. rewrite Hact. simpl. rewrite Hleft, Hfind. reflexivity. }
  rewrite getStagingDates_eq in Hget. simpl in Hget. rewrite Hnd, Hanchor in Hget.
  assert (Hi : Object_keys workflow !! length pre = Some stage).
  { rewrite Hstages. apply list_lookup_middle. reflexivity. }
  assert (Hin : forall t, In t (Object_keys workflow) ->
            includes (Object_keys workflow) t = true).
  { intros t Ht. now apply includes_In. }
  rewrite (notDone_emits_cursor _ _ _ _ _ _ _ _ Hget Hi).
  - rewrite Hstages, take_app_length. f_equal. f_equal.
    assert (Hnone : forall t, In t pre ->
              forwardDays activeStatuses
                (as_passedDays (activeTable issue workflow activeStatuses)) t = None).
    { intros t Ht. unfold forwardDays.
      destruct (includes activeStatuses t) eqn:Ea; [|reflexivity].
      destruct (negb (isDone t)); [|reflexivity]. simpl.
      rewrite Htable, Hin, Ea by (rewrite Hstages; apply in_or_app; now left).
      simpl. now rewrite (Hpre t Ht Ea). }
    unfold forwardCursor. clear -Hnone.
    induction pre as [|t pre IH]; simpl; [reflexivity|].
    rewrite (Hnone t (or_introl eq_refl)). apply IH.
    intros u Hu. apply Hnone. now right.
  - left. unfold forwardDays. rewrite Hact, Hdone. simpl.
    rewrite Htable, Hin, Hact by (rewrite Hstages; apply in_or_app; right; now left).
    simpl. rewrite Hleft. eauto.
Qed.

End FirstStage.

(** ** Time order, and the store *)

(** X1: [processHistories] returns the transitions in time order: no
    transition has a time before the time of the one in front of it. *)
Theorem transitions_in_time_order (issue : JiraApiIssue) :
  Sorted (fun a b => String.ltb (created b) (created a) = false)
    (processHistories issue).
Proof. apply processHistories_Sorted. Qed.

(** X17: the writes to the transitions do not show in the result: run on a
    store that holds the issue, with every write of [previousCreated] done
    in place on the shared items, the parser returns what it returns on the
    issue as a value. *)
Theorem writes_in_place_agree {cal : BusinessCalendar} (h : Store) (ir : IssueRef)
    (issue : JiraApiIssue) (workflow : Workflow) (activeStatuses : list string) :
  issueAt h ir issue ->
  snd (getStagingDatesH ir workflow activeStatuses h) =
  getStagingDates issue workflow activeStatuses.
Proof. apply getStagingDatesH_refines. Qed.

(** ** The dates of the backward simulation *)

Section BackwardDates.
Context {cal : BusinessCalendar}.

Lemma doneLoop_cursor (active : gmap string StagePassedDays) (l : list string) :
  forall d sim st,
    forEach (doneStep active) l (Some d, sim) = Ok st ->
    fst st = Some (backwardCursor active l d).
Proof.
  induction l as [|x l IH]; intros d sim st H; simpl in *.
  - injection H as <-. reflexivity.
  - unfold doneStep at 1 in H.
    destruct (active !! x) as [r|]; [|discriminate]. simpl in H.
    destruct (didHappen r); simpl in H; eapply IH; eassumption.
Qed.

(** X18: the dates of the backward simulation.  A status that happened, and
    is not listed a second time in front of its place in [activeStatuses],
    gets the date of [Done] moved back by the business days of the statuses
    that happened among those listed from the end of [activeStatuses] down
    to it, itself included. *)
Theorem backward_date_is_moved_done_date (stages activeStatuses pre post : list string)
    (status : string) (active : gmap string StagePassedDays)
    (inactive : gmap string Moment) (r : StagePassedDays) (d : Moment)
    (dates : list string) (i : nat) :
  mapDoneIssue stages activeStatuses active inactive = Ok dates ->
  inactive !! "Done" = Some d ->
  activeStatuses = pre ++ status :: post ->
  ~ In status pre ->
  active !! status = Some r ->
  didHappen r = true ->
  stages !! i = Some status ->
  dates !! i = Some (format (backwardCursor active (rev (status :: post)) d)).
Proof.
  intros Hmap Hd Hact Hpre Hr Hh Hi.
  unfold mapDoneIssue, doneInit in Hmap. rewrite Hd in Hmap.
  assert (Hrev : rev activeStatuses = rev post ++ [status] ++ rev pre).
  { subst activeStatuses. rewrite rev_app_distr. simpl.
    now rewrite <- app_assoc. }
  rewrite Hrev, forEach_app in Hmap.
  destruct (forEach (doneStep active) (rev post) _) as [[c1 sim1]|e] eqn:E1;
    simpl in Hmap; [|discriminate].
  pose proof (doneLoop_cursor _ _ _ _ _ E1) as Hc1. simpl in Hc1. subst c1.
  unfold doneStep at 1 in Hmap. rewrite Hr, Hh in Hmap. simpl in Hmap.
  destruct (forEach (doneStep active) (rev pre) _) as [st|e] eqn:E2;
    simpl in Hmap; [|discriminate].
  injection Hmap as <-.
  rewrite list_lookup_fmap, Hi. simpl. f_equal. unfold doneDate.
  assert (Hinc : includes activeStatuses status = true).
  { apply includes_In. subst activeStatuses. apply in_or_app. right. now left. }
  rewrite Hinc.
  rewrite (doneLoop_keeps _ _ status _ _ E2) by (rewrite <- in_rev; assumption).
  simpl. rewrite lookup_insert_eq. simpl. f_equal.
  unfold backwardCursor. rewrite fold_left_app. simpl. now rewrite Hr, Hh.
Qed.

End BackwardDates.

(** ** Instances of the further properties, on the Monday-Friday calendar *)

Section FurtherInstances.
#[local] Existing Instance MonFri.calendar.

Lemma previousCreated_is_time_before_witness :
  previousCreated
    {| fromString := Some "In Progress"; toString := Some "Done";
       created := "2024-01-08T09:00:00.000+0000";
       previousCreated := Some "2024-01-02T09:00:00.000+0000" |} =
  if String.eqb "2024-01-02T09:00:00.000+0000" ""
  then None else Some "2024-01-02T09:00:00.000+0000".
Proof.
  refine (proj2 (previousCreated_is_time_before scenarioA_timed) 0%nat
            {| fromString := Some "Backlog"; toString := Some "In Progress";
               created := "2024-01-02T09:00:00.000+0000";
               previousCreated := None |}
            _ _ _); vm_compute; reflexivity.
Defined.


Lemma forward_date_is_moved_anchor_witness :
  ["2024-01-01"; "2024-01-03"; ""] !! 1%nat =
  Some (format
          (forwardCursor ["In Progress"; "Review"]
             (as_passedDays
                (activeTable bounced reviewStages ["In Progress"; "Review"]))
             (take 1 (Object_keys reviewStages)) (MonFri.day 19723))).
Proof.
  refine (forward_date_is_moved_anchor (cal := MonFri.calendar)
            (Object_keys reviewStages) ["In Progress"; "Review"]
            (as_passedDays (activeTable bounced reviewStages ["In Progress"; "Review"]))
            (inactiveTable bounced reviewStages ["In Progress"; "Review"])
            (MonFri.day 19723) ["2024-01-01"; "2024-01-03"; ""] 1%nat "Review"
            _ eq_refl _).
  - vm_compute. reflexivity.
  - left. vm_compute. eauto.
Defined.


Lemma stage_never_left_is_empty_witness :
  [""; ""; ""] !! 1%nat = Some "".
Proof.
  refine (stage_never_left_is_empty (cal := MonFri.calendar)
            scenarioB threeStages ["In Progress"] [""; ""; ""] 1%nat "In Progress"
            _ eq_refl eq_refl _); vm_compute; reflexivity.
Defined.

Lemma forward_result_by_membership_witness :
  getStagingDates bounced reviewStages ["In Progress"; "Review"] =
  getStagingDates bounced reviewStages ["Blocked"; "Review"; "In Progress"; "Review"].
Proof.
  refine (forward_result_by_membership (cal := MonFri.calendar)
            bounced reviewStages ["In Progress"; "Review"]
            ["Blocked"; "Review"; "In Progress"; "Review"] _ _).
  - simpl. intros s [<-|[<-|[<-|[]]]]; reflexivity.
  - vm_compute. reflexivity.
Defined.

Lemma stage_never_entered_is_empty_witness :
  [""; "2024-01-02"; "2024-01-08"] !! 0%nat = Some "".
Proof.
  refine (stage_never_entered_is_empty (cal := MonFri.calendar)
            scenarioA threeStages ["In Progress"] [""; "2024-01-02"; "2024-01-08"]
            0%nat "Backlog" _ eq_refl eq_refl _); vm_compute; reflexivity.
Defined.

Lemma first_left_stage_starts_at_first_episode_witness :
  ["2024-01-01"; "2024-01-03"; ""] !! length (@nil string) =
  Some (format (moment (splitT0 "2024-01-01T09:00:00.000+0000"))).
Proof.
  refine (first_left_stage_starts_at_first_episode (cal := MonFri.calendar)
            bounced reviewStages ["In Progress"; "Review"]
            ["2024-01-01"; "2024-01-03"; ""] [] ["Review"; "Done"] "In Progress"
            {| fromString := Some "In Progress"; toString := Some "Review";
               created := "2024-01-03T09:00:00.000+0000";
               previousCreated := None |}
            _ _ eq_refl _ eq_refl eq_refl _);
    try (vm_compute; reflexivity).
  intros t [].
Defined.

Lemma writes_in_place_agree_witness :
  snd (getStagingDatesH scenarioA_ref threeStages ["In Progress"] scenarioA_store) =
  getStagingDates scenarioA_timed threeStages ["In Progress"].
Proof.
  refine (writes_in_place_agree (cal := MonFri.calendar) scenarioA_store
            scenarioA_ref scenarioA_timed threeStages ["In Progress"] _).
  split.
  - eexists. split; reflexivity.
  - repeat constructor; eexists; (split; [reflexivity|]); repeat split.
Defined.

Lemma backward_date_is_moved_done_date_witness :
  ["2024-01-01"; "2024-01-02"; "2024-01-04"] !! 0%nat =
  Some (format
          (backwardCursor
             (as_passedDays
                (activeTable reviewed reviewStages ["In Progress"; "Review"]))
             (rev ["In Progress"; "Review"]) (MonFri.day 19726))).
Proof.
  refine (backward_date_is_moved_done_date (cal := MonFri.calendar)
            (Object_keys reviewStages) ["In Progress"; "Review"] [] ["Review"]
            "In Progress"
            (as_passedDays (activeTable reviewed reviewStages ["In Progress"; "Review"]))
            (inactiveTable reviewed reviewStages ["In Progress"; "Review"])
            {| didHappen := true; passedDays := 1 |} (MonFri.day 19726)
            ["2024-01-01"; "2024-01-02"; "2024-01-04"] 0%nat
            _ _ eq_refl (fun H : In "In Progress" [] => H) _ eq_refl eq_refl);
    vm_compute; reflexivity.
Defined.

End FurtherInstances.
